(** * The superslab header of snmalloc: slab allocation inside a superslab

    A shallow embedding of [src/mem/superslab.h].  A superslab is a region of
    [SLAB_COUNT] slabs; slot 0 (the short slab) overlays the header, slots
    [1 .. SLAB_COUNT-1] are the regular slabs, strung on a free list whose
    links are relative offsets kept in the per-slot metadata. *)

From Stdlib Require Import ZArith Lia Bool List.
From stdpp Require Import base numbers list.

Local Open Scope Z_scope.

(** ** Fixed-width integers

    The header stores [head] and the per-slot [next] in a [uint8_t] and [used]
    in a [uint16_t]; loop counters are [size_t].  A value is a [Z] and every
    store into one of these types is written as the reduction it performs. *)

Definition to_uint8 (x : Z) : Z := x mod 2 ^ 8.
Definition to_uint16 (x : Z) : Z := x mod 2 ^ 16.

(** [size_t] is taken 64 bits wide. *)
Definition to_size_t (x : Z) : Z := x mod 2 ^ 64.

(** ** The per-slot metadata record *)

Module Metaslab.

(** Modelled from the spec: the per-slot metadata record of [metaslab.h],
    which is not among the sources.  It holds the slot's object free list
    ([free_queue]), a mark raised when the slot is handed to the bump
    allocator ([full]), the stored size class and the offset to the next
    free slot; both of the last two are bytes. *)
Record t : Type := mk {
  free_queue : list Z;
  full : bool;
  sizeclass : Z;
  next : Z
}.

(** Modelled from the spec: [Metaslab()], the default unused state; it is
    also what zero-filled memory holds. *)
Definition default : t :=
  {| free_queue := []; full := false; sizeclass := 0; next := 0 |}.

(** Modelled from the spec: [free_queue.init()] initialises the slot's
    object free list. *)
Definition free_queue_init (m : t) : t :=
  {| free_queue := []; full := full m; sizeclass := sizeclass m; next := next m |}.

(** Modelled from the spec: [set_full()] marks the slot's free list as
    exhausted, that is, wholly handed to the bump allocator. *)
Definition set_full (m : t) : t :=
  {| free_queue := free_queue m; full := true; sizeclass := sizeclass m; next := next m |}.

(** Modelled from the spec: [is_unused()] tells whether the slot is
    currently unused. *)
Definition is_unused (m : t) : bool := negb (full m).

Definition set_sizeclass (v : Z) (m : t) : t :=
  {| free_queue := free_queue m; full := full m; sizeclass := v; next := next m |}.

Definition set_next (v : Z) (m : t) : t :=
  {| free_queue := free_queue m; full := full m; sizeclass := sizeclass m; next := v |}.

End Metaslab.

#[global] Instance Metaslab_inhabited : Inhabited Metaslab.t :=
  populate Metaslab.default.

(** ** The header *)

(** Modelled from the spec: the content kind of a region, declared in
    [allocslab.h], which is not among the sources.  [Fresh] is memory never
    used before, [Super] a superslab; every other kind of content is
    [OtherKind]. *)
Inductive SlabKind : Type := Fresh | Super | OtherKind.

Inductive Status : Type := Full | Available | OnlyShortSlabAvailable | Empty.

Inductive Action : Type := NoSlabReturn | NoStatusChange | StatusChange.

#[global] Instance SlabKind_eq_dec : EqDecision SlabKind.
Proof. solve_decision. Defined.

#[global] Instance Status_eq_dec : EqDecision Status.
Proof. solve_decision. Defined.

#[global] Instance Action_eq_dec : EqDecision Action.
Proof. solve_decision. Defined.

(** The fields the methods of [Superslab] read or write.  [kind] and
    [allocator] are inherited from [Allocslab]; the [next] and [prev] links of
    the list of superslabs are never accessed by these methods and are left
    out.  [head] is the byte stored in the [Mod<SLAB_COUNT, uint8_t>], [used]
    the [uint16_t] counter, [meta] the array of [SLAB_COUNT] records.  An
    address is a [Z]. *)
Record Superslab : Type := mkSuperslab {
  kind : SlabKind;
  allocator : Z;
  head : Z;
  used : Z;
  meta : list Metaslab.t
}.

Definition with_allocator (a : Z) (s : Superslab) : Superslab :=
  {| kind := kind s; allocator := a; head := head s; used := used s; meta := meta s |}.

Definition with_kind (k : SlabKind) (s : Superslab) : Superslab :=
  {| kind := k; allocator := allocator s; head := head s; used := used s; meta := meta s |}.

Definition with_head (h : Z) (s : Superslab) : Superslab :=
  {| kind := kind s; allocator := allocator s; head := h; used := used s; meta := meta s |}.

Definition with_used (u : Z) (s : Superslab) : Superslab :=
  {| kind := kind s; allocator := allocator s; head := head s; used := u; meta := meta s |}.

Definition with_meta (m : list Metaslab.t) (s : Superslab) : Superslab :=
  {| kind := kind s; allocator := allocator s; head := head s; used := used s; meta := m |}.

Section Superslab.

(** Modelled from the spec: the number of slots of a superslab is a power of
    two fixed at build time; the constant itself is declared outside the
    sources.  A slot index is a byte, so there are at most 256 slots, and
    slot 1 is a regular slab, so there are at least two. *)
Variable SLAB_COUNT_BITS : Z.
Hypothesis SLAB_COUNT_BITS_range : 1 <= SLAB_COUNT_BITS <= 8.

Definition SLAB_COUNT : Z := Z.shiftl 1 SLAB_COUNT_BITS.

(** Modelled from the spec: the bit width of the per-slab size, another
    build-time constant declared outside the sources.  The whole superslab,
    [SLAB_COUNT] slabs, has a size that a [size_t] holds. *)
Variable SLAB_BITS : Z.
Hypothesis SLAB_BITS_range : 0 <= SLAB_BITS /\ SLAB_BITS + SLAB_COUNT_BITS < 64.

Definition SLAB_SIZE : Z := Z.shiftl 1 SLAB_BITS.

(** [sizeof(Superslab)] and the page size of the platform. *)
Variable sizeof_Superslab : Z.
Variable OS_PAGE_SIZE : Z.

(** The table of size classes, declared outside the sources: the largest
    object size of each class, and the number of classes. *)
Variable sizeclass_to_size : Z -> Z.
Variable NUM_SIZECLASSES : nat.

(** ** Helpers of [ds/helpers.h] *)

(** Modelled from the spec: [Mod<SLAB_COUNT, uint8_t>] holds an index modulo
    [SLAB_COUNT]: a store keeps the byte, a read masks it. *)
Definition Mod_get (v : Z) : Z := Z.land v (SLAB_COUNT - 1).
Definition Mod_set (v : Z) : Z := to_uint8 v.

(** Modelled from the spec: [ModArray<SLAB_COUNT, Metaslab>] is the dense
    array of the [SLAB_COUNT] records, [meta[0 .. SLAB_COUNT-1]].  The
    helper is declared outside the sources; here an index is reduced into
    the range of the array, which is the identity on every index below
    [SLAB_COUNT].  What an access beyond the array does is not stated by the
    spec, and no property below rests on it. *)
Definition ModArray_index (i : Z) : nat := Z.to_nat (Z.land i (SLAB_COUNT - 1)).

Definition meta_at (s : Superslab) (i : Z) : Metaslab.t :=
  meta s !!! ModArray_index i.

Definition set_meta_at (i : Z) (m : Metaslab.t) (s : Superslab) : Superslab :=
  with_meta (<[ModArray_index i := m]> (meta s)) s.

(** Modelled from the spec: [pointer_offset] and [pointer_diff], address
    arithmetic; the difference is a [size_t]. *)
Definition pointer_offset (base diff : Z) : Z := base + diff.
Definition pointer_diff (base cursor : Z) : Z := to_size_t (cursor - base).

(** [self] is the address of the header, the [this] of the methods. *)
Definition slab_to_index (self slab : Z) : Z :=
  to_uint8 (Z.shiftr (pointer_diff self slab) SLAB_BITS).

(** ** Short size classes *)

(** Modelled from the spec: [size_to_sizeclass_const] rounds up: it returns
    the smallest class whose objects can contain [size] bytes.  The function
    is declared outside the sources; it is a search through the table. *)
Fixpoint smallest_class_from (n : nat) (c : Z) (size : Z) : Z :=
  match n with
  | O => c
  | S n' =>
      if size <=? sizeclass_to_size c then c
      else smallest_class_from n' (c + 1) size
  end.

Definition size_to_sizeclass_const (size : Z) : Z :=
  smallest_class_from NUM_SIZECLASSES 0 size.

(** The [static_assert] of the source makes the difference positive. *)
Definition is_short_sizeclass (sizeclass : Z) : bool :=
  let h := size_to_sizeclass_const (SLAB_SIZE - sizeof_Superslab) in
  sizeclass <? h.

(** ** Initialisation *)

(** The loop that rebuilds every record with placement [new]. *)
Definition reset_meta (s : Superslab) : Superslab :=
  foldl (fun s' i => set_meta_at (Z.of_nat i) Metaslab.default s')
        s (seq 0 (Z.to_nat SLAB_COUNT)).

(** [init] without its [#ifndef NDEBUG] block. *)
Definition init (alloc : Z) (s : Superslab) : Superslab :=
  let s := with_allocator alloc s in
  if negb (bool_decide (kind s = Super)) || (sizeof_Superslab >=? OS_PAGE_SIZE) then
    let s :=
      if negb (bool_decide (kind s = Fresh)) then reset_meta (with_used 0 s)
      else s in
    let s := with_kind Super s in
    with_head (Mod_set 1) s
  else s.

(** The body of the debug walk: [curr] is a copy of [head], hence a [Mod]
    too; it is read masked and stored as a byte. *)
Definition debug_step (s : Superslab) (curr : Z) : Z :=
  Mod_set (Z.land (Mod_get curr + Metaslab.next (meta_at s (Mod_get curr)) + 1)
                  (SLAB_COUNT - 1)).

(** The number of iterations of the debug walk; the bound is computed in
    [size_t]. *)
Definition init_debug_steps (s : Superslab) : nat :=
  Z.to_nat (to_size_t (SLAB_COUNT - used s - 1)).

Definition init_debug_walk (s : Superslab) : Z :=
  Nat.iter (init_debug_steps s) (debug_step s) (head s).

Definition init_debug_unused (s : Superslab) : bool :=
  forallb (fun i => Metaslab.is_unused (meta_at s (Z.of_nat i)))
          (seq 0 (Z.to_nat SLAB_COUNT)).

(** The [#ifndef NDEBUG] block of [init], run on the state the first half
    leaves: [false] when the walk does not end on slot 0 ([abort]) or a
    record is in use (the assertion). *)
Definition init_debug_check (s : Superslab) : bool :=
  (Mod_get (init_debug_walk s) =? 0) && init_debug_unused s.

(** [init] in a debug build: [None] is an abort. *)
Definition init_debug (alloc : Z) (s : Superslab) : option Superslab :=
  let s' := init alloc s in
  if init_debug_check s' then Some s' else None.

(** ** Status queries *)

Definition is_empty (s : Superslab) : bool := used s =? 0.

Definition is_full (s : Superslab) : bool :=
  used s =? Z.shiftl (SLAB_COUNT - 1) 1 + 1.

Definition is_almost_full (s : Superslab) : bool :=
  used s >=? Z.shiftl (SLAB_COUNT - 1) 1.

Definition get_status (s : Superslab) : Status :=
  if negb (is_almost_full s) then
    if negb (is_empty s) then Available else Empty
  else if negb (is_full s) then OnlyShortSlabAvailable
  else Full.

Definition get_meta (self : Z) (s : Superslab) (slab : Z) : Metaslab.t :=
  meta_at s (slab_to_index self slab).

(** ** Allocation and deallocation

    The assertions ([SNMALLOC_ASSERT]) compile to nothing in a release build
    ([NDEBUG]): the functions of this part are those of the release build.
    The same calls in a build with assertions are [dealloc_slab_debug] and
    [dealloc_short_slab_debug] below, which abort where an assertion
    fails. *)

Definition alloc_slab (self : Z) (s : Superslab) (sizeclass : Z) : Z * Superslab :=
  let h := Mod_get (head s) in
  let slab := pointer_offset self (to_size_t (Z.shiftl h SLAB_BITS)) in
  let metah := meta_at s h in
  let n := Metaslab.next metah in
  let metah := Metaslab.free_queue_init metah in
  let metah := Metaslab.set_full metah in
  let metah := Metaslab.set_sizeclass (to_uint8 sizeclass) metah in
  let s := set_meta_at h metah s in
  let s := with_head (Mod_set (h + n + 1)) s in
  let s := with_used (to_uint16 (used s + 2)) s in
  (slab, s).

Definition alloc_short_slab (self : Z) (s : Superslab) (sizeclass : Z) : Z * Superslab :=
  if Z.land (used s) 1 =? 1 then alloc_slab self s sizeclass
  else
    let metaz := meta_at s 0 in
    let metaz := Metaslab.free_queue_init metaz in
    let metaz := Metaslab.set_full metaz in
    let metaz := Metaslab.set_sizeclass (to_uint8 sizeclass) metaz in
    let s := set_meta_at 0 metaz s in
    let s := with_used (to_uint16 (used s + 1)) s in
    (self, s).

Definition dealloc_slab (self : Z) (s : Superslab) (slab : Z) : Action * Superslab :=
  let index := to_uint8 (slab_to_index self slab) in
  let n := to_uint8 (Mod_get (head s) - index - 1) in
  let s := set_meta_at index (Metaslab.set_sizeclass 0 (meta_at s index)) s in
  let s := set_meta_at index (Metaslab.set_next n (meta_at s index)) s in
  let s := with_head (Mod_set index) s in
  let was_almost_full := is_almost_full s in
  let s := with_used (to_uint16 (used s - 2)) s in
  if was_almost_full || is_empty s then (StatusChange, s)
  else (NoStatusChange, s).

Definition dealloc_short_slab (s : Superslab) : Action * Superslab :=
  let was_full := is_full s in
  let s := with_used (to_uint16 (used s - 1)) s in
  if was_full || is_empty s then (StatusChange, s)
  else (NoStatusChange, s).

(** ** The free list and the invariants *)

(** The slot that follows [curr] on the free list of the records [m]: the
    stored link is the distance to it, minus one. *)
Definition chain_next (m : list Metaslab.t) (curr : Z) : Z :=
  (curr + Metaslab.next (m !!! Z.to_nat curr) + 1) mod SLAB_COUNT.

(** The slots met from [curr] up to the terminator, slot 0, which is not
    listed; [None] when slot 0 is not met within [fuel] steps. *)
Fixpoint chain_from (m : list Metaslab.t) (fuel : nat) (curr : Z) : option (list Z) :=
  if curr =? 0 then Some []
  else
    match fuel with
    | O => None
    | S fuel' => cons curr <$> chain_from m fuel' (chain_next m curr)
    end.

(** The free list of a superslab, in traversal order. *)
Definition free_list (s : Superslab) : option (list Z) :=
  chain_from (meta s) (Z.to_nat SLAB_COUNT) (Mod_get (head s)).

(** The slot reached from [curr] after [n] links. *)
Definition walk (m : list Metaslab.t) (n : nat) (curr : Z) : Z :=
  Nat.iter n (chain_next m) curr.

(** The array has its [SLAB_COUNT] records. *)
Definition meta_ok (s : Superslab) : bool :=
  bool_decide (length (meta s) = Z.to_nat SLAB_COUNT).

(** The encoding of [used]: twice the number of regular slabs in use, plus
    one for the short slab. *)
Definition used_ok (s : Superslab) : bool :=
  (0 <=? used s) && (used s <=? 2 * (SLAB_COUNT - 1) + 1).

(** The free list ends on slot 0 and holds every regular slot that is not
    in use. *)
Definition free_list_ok (s : Superslab) : bool :=
  match free_list s with
  | Some l => Z.of_nat (length l) =? SLAB_COUNT - 1 - Z.shiftr (used s) 1
  | None => false
  end.

Definition invariant (s : Superslab) : bool :=
  meta_ok s && used_ok s && free_list_ok s.

(** The address of slot [i]. *)
Definition slab_address (self i : Z) : Z := self + i * SLAB_SIZE.

(** Zero-filled memory, before a header is built in it. *)
Definition zero_filled (s : Superslab) : Prop :=
  head s = 0 /\ used s = 0 /\
  meta s = replicate (Z.to_nat SLAB_COUNT) Metaslab.default.

(** The states of a superslab at [self] that the calls of its owner produce,
    each with the regular slabs handed out by [alloc_slab] and not yet given
    back.  The owner initialises fresh or recycled memory, initialises an
    empty superslab anew, allocates where there is room, and frees what it
    holds; between these calls the object-level code, which is not part of
    the header, rewrites the records of the slabs in use. *)
Inductive reachable (self : Z) : Superslab -> list Z -> Prop :=
| reach_fresh alloc s :
    kind s = Fresh -> zero_filled s ->
    reachable self (init alloc s) []
| reach_recycled alloc s :
    kind s = OtherKind -> length (meta s) = Z.to_nat SLAB_COUNT ->
    reachable self (init alloc s) []
| reach_again alloc s :
    reachable self s [] -> is_empty s = true ->
    reachable self (init alloc s) []
| reach_alloc_slab s out sizeclass :
    reachable self s out -> is_almost_full s = false ->
    reachable self (alloc_slab self s sizeclass).2
              ((alloc_slab self s sizeclass).1 :: out)
| reach_alloc_short_slab s out sizeclass :
    reachable self s out -> Z.even (used s) = true ->
    reachable self (alloc_short_slab self s sizeclass).2 out
| reach_alloc_short_fallback s out sizeclass :
    reachable self s out -> Z.odd (used s) = true -> is_almost_full s = false ->
    reachable self (alloc_short_slab self s sizeclass).2
              ((alloc_short_slab self s sizeclass).1 :: out)
| reach_dealloc_slab s out slab :
    reachable self s out -> slab ∈ out ->
    reachable self (dealloc_slab self s slab).2
              (filter (fun p => p <> slab) out)
| reach_dealloc_short_slab s out :
    reachable self s out -> Z.odd (used s) = true ->
    reachable self (dealloc_short_slab s).2 out
| reach_slab_use s out slab m :
    reachable self s out -> slab ∈ out ->
    reachable self (set_meta_at (slab_to_index self slab) m s) out
| reach_short_slab_use s out m :
    reachable self s out -> Z.odd (used s) = true ->
    reachable self (set_meta_at 0 m s) out.

(** The invariant, with the free list [l] it speaks of. *)
Definition chain_inv (s : Superslab) (l : list Z) : Prop :=
  length (meta s) = Z.to_nat SLAB_COUNT /\
  0 <= used s <= 2 * (SLAB_COUNT - 1) + 1 /\
  free_list s = Some l /\
  Z.of_nat (length l) = SLAB_COUNT - 1 - Z.shiftr (used s) 1.

(** The slabs handed out are as many as [used] counts, each is a regular
    slot, and none is on the free list [l]. *)
Definition out_inv (self : Z) (s : Superslab) (l out : list Z) : Prop :=
  NoDup out /\
  Z.of_nat (length out) = Z.shiftr (used s) 1 /\
  forall p, p ∈ out ->
    exists i, 1 <= i < SLAB_COUNT /\ p = slab_address self i /\ i ∉ l.

(** The calls of the owner once more, now with what the owner itself
    knows of them: the regular slabs it holds, [out], and whether it holds
    the short slab, [short].  No premise reads the header: a call is allowed
    by what was handed out and given back before it. *)
Inductive tracked (self : Z) : Superslab -> list Z -> bool -> Prop :=
| track_fresh alloc s :
    kind s = Fresh -> zero_filled s ->
    tracked self (init alloc s) [] false
| track_recycled alloc s :
    kind s = OtherKind -> length (meta s) = Z.to_nat SLAB_COUNT ->
    tracked self (init alloc s) [] false
| track_again alloc s :
    tracked self s [] false ->
    tracked self (init alloc s) [] false
| track_alloc_slab s out short sizeclass :
    tracked self s out short ->
    Z.of_nat (length out) < SLAB_COUNT - 1 ->
    tracked self (alloc_slab self s sizeclass).2
            ((alloc_slab self s sizeclass).1 :: out) short
| track_alloc_short_slab s out sizeclass :
    tracked self s out false ->
    tracked self (alloc_short_slab self s sizeclass).2 out true
| track_alloc_short_fallback s out sizeclass :
    tracked self s out true ->
    Z.of_nat (length out) < SLAB_COUNT - 1 ->
    tracked self (alloc_short_slab self s sizeclass).2
            ((alloc_short_slab self s sizeclass).1 :: out) true
| track_dealloc_slab s out short slab :
    tracked self s out short -> slab ∈ out ->
    tracked self (dealloc_slab self s slab).2
            (filter (fun p => p <> slab) out) short
| track_dealloc_short_slab s out :
    tracked self s out true ->
    tracked self (dealloc_short_slab s).2 out false
| track_slab_use s out short slab m :
    tracked self s out short -> slab ∈ out ->
    tracked self (set_meta_at (slab_to_index self slab) m s) out short
| track_short_slab_use s out m :
    tracked self s out true ->
    tracked self (set_meta_at 0 m s) out true.

(** ** The remaining entry points *)

(** Modelled from the spec: the size of a superslab, declared outside the
    sources; the region is [SLAB_COUNT] slots of [SLAB_SIZE] bytes. *)
Definition SUPERSLAB_SIZE : Z := SLAB_COUNT * SLAB_SIZE.

(** Modelled from the spec: [pointer_align_down<alignment>] truncates an
    address to the alignment, a power of two, by clearing its low bits. *)
Definition pointer_align_down (alignment p : Z) : Z :=
  Z.land p (Z.lnot (alignment - 1)).

(** [Superslab::get]: the header of the superslab that holds [p]. *)
Definition get (p : Z) : Z := pointer_align_down SUPERSLAB_SIZE p.

(** The assertion of [slab_to_index], checked in a debug build: the index
    is a byte. *)
Definition slab_to_index_assert (self slab : Z) : bool :=
  let res := Z.shiftr (pointer_diff self slab) SLAB_BITS in
  res =? to_uint8 res.

(** [dealloc_slab] in a build with assertions; [None] is an abort.  The
    index must be a byte (the assertion of [slab_to_index]) and, once the
    record, [head] and [used] are written, the record of the slab given back
    must report itself unused. *)
Definition dealloc_slab_debug (self : Z) (s : Superslab) (slab : Z)
  : option (Action * Superslab) :=
  if slab_to_index_assert self slab then
    let index := to_uint8 (slab_to_index self slab) in
    let r := dealloc_slab self s slab in
    if Metaslab.is_unused (meta_at r.2 index) then Some r else None
  else None.

(** [dealloc_short_slab] in a build with assertions: once [used] is
    written, the record of slot 0 must report itself unused. *)
Definition dealloc_short_slab_debug (s : Superslab) : option (Action * Superslab) :=
  let r := dealloc_short_slab s in
  if Metaslab.is_unused (meta_at r.2 0) then Some r else None.

(** A run of calls of [alloc_slab], one per size class of the list, with
    the slabs they return. *)
Fixpoint alloc_slabs (self : Z) (s : Superslab) (sizeclasses : list Z)
  : list Z * Superslab :=
  match sizeclasses with
  | [] => ([], s)
  | c :: cs =>
      let r := alloc_slab self s c in
      let rs := alloc_slabs self r.2 cs in
      (r.1 :: rs.1, rs.2)
  end.

(** ** Arithmetic of the constants *)

Lemma SLAB_COUNT_pow2 : SLAB_COUNT = 2 ^ SLAB_COUNT_BITS.
Proof using SLAB_COUNT_BITS_range.
  unfold SLAB_COUNT. rewrite Z.shiftl_1_l. reflexivity.
Qed.

Lemma SLAB_COUNT_bounds : 2 <= SLAB_COUNT <= 256.
Proof using SLAB_COUNT_BITS_range.
  rewrite SLAB_COUNT_pow2. split.
  - change 2 with (2 ^ 1) at 1. apply Z.pow_le_mono_r; lia.
  - change 256 with (2 ^ 8). apply Z.pow_le_mono_r; lia.
Qed.

Lemma shiftl_1_double (x : Z) : Z.shiftl x 1 = 2 * x.
Proof. rewrite Z.shiftl_mul_pow2 by lia. lia. Qed.

(** ** The helpers, read as arithmetic *)

Lemma Mod_get_mod (v : Z) : Mod_get v = v mod SLAB_COUNT.
Proof using SLAB_COUNT_BITS_range.
  unfold Mod_get. rewrite SLAB_COUNT_pow2.
  replace (2 ^ SLAB_COUNT_BITS - 1) with (Z.ones SLAB_COUNT_BITS)
    by (rewrite Z.ones_equiv; lia).
  apply Z.land_ones. lia.
Qed.

Lemma SLAB_COUNT_divides_256 : (SLAB_COUNT | 2 ^ 8).
Proof using SLAB_COUNT_BITS_range.
  rewrite SLAB_COUNT_pow2. exists (2 ^ (8 - SLAB_COUNT_BITS)).
  rewrite <- Z.pow_add_r by lia. f_equal. lia.
Qed.

Lemma Mod_get_set (v : Z) : Mod_get (Mod_set v) = v mod SLAB_COUNT.
Proof using SLAB_COUNT_BITS_range.
  rewrite Mod_get_mod. unfold Mod_set, to_uint8.
  apply Z.mod_mod_divide, SLAB_COUNT_divides_256.
Qed.

Lemma to_uint8_mod_SLAB_COUNT (v : Z) : to_uint8 v mod SLAB_COUNT = v mod SLAB_COUNT.
Proof using SLAB_COUNT_BITS_range.
  unfold to_uint8. apply Z.mod_mod_divide, SLAB_COUNT_divides_256.
Qed.

Lemma Mod_get_range (v : Z) : 0 <= Mod_get v < SLAB_COUNT.
Proof using SLAB_COUNT_BITS_range.
  rewrite Mod_get_mod. apply Z.mod_pos_bound. pose proof SLAB_COUNT_bounds. lia.
Qed.

Lemma Mod_get_small (v : Z) : 0 <= v < SLAB_COUNT -> Mod_get v = v.
Proof using SLAB_COUNT_BITS_range.
  intros H. rewrite Mod_get_mod. apply Z.mod_small. exact H.
Qed.

Lemma ModArray_index_small (i : Z) :
  0 <= i < SLAB_COUNT -> ModArray_index i = Z.to_nat i.
Proof using SLAB_COUNT_BITS_range.
  intros H. unfold ModArray_index. fold (Mod_get i). rewrite Mod_get_small; auto.
Qed.

Lemma ModArray_index_lt (i : Z) : (ModArray_index i < Z.to_nat SLAB_COUNT)%nat.
Proof using SLAB_COUNT_BITS_range.
  unfold ModArray_index. fold (Mod_get i). pose proof (Mod_get_range i). lia.
Qed.

Lemma to_uint8_small (v : Z) : 0 <= v < 256 -> to_uint8 v = v.
Proof. intros H. unfold to_uint8. apply Z.mod_small. lia. Qed.

Lemma to_uint16_small (v : Z) : 0 <= v < 65536 -> to_uint16 v = v.
Proof. intros H. unfold to_uint16. apply Z.mod_small. lia. Qed.

Lemma SLAB_SIZE_pow2 : SLAB_SIZE = 2 ^ SLAB_BITS.
Proof. unfold SLAB_SIZE. apply Z.shiftl_1_l. Qed.

Lemma SLAB_SIZE_pos : 0 < SLAB_SIZE.
Proof using SLAB_BITS_range.
  rewrite SLAB_SIZE_pow2. apply Z.pow_pos_nonneg; lia.
Qed.

(** The offset of slot [i] does not overflow a [size_t]. *)
Lemma slab_offset_range (i : Z) :
  0 <= i < SLAB_COUNT -> 0 <= i * SLAB_SIZE < 2 ^ 64.
Proof using SLAB_COUNT_BITS_range SLAB_BITS_range.
  intros H. pose proof SLAB_SIZE_pos as HS. split; [nia |].
  apply Z.lt_le_trans with (SLAB_COUNT * SLAB_SIZE); [nia |].
  rewrite SLAB_SIZE_pow2, SLAB_COUNT_pow2, <- Z.pow_add_r by lia.
  apply Z.pow_le_mono_r; lia.
Qed.

Lemma slab_offset_size_t (i : Z) :
  0 <= i < SLAB_COUNT -> to_size_t (Z.shiftl i SLAB_BITS) = i * SLAB_SIZE.
Proof using SLAB_COUNT_BITS_range SLAB_BITS_range.
  intros H. rewrite Z.shiftl_mul_pow2, <- SLAB_SIZE_pow2 by lia.
  unfold to_size_t. apply Z.mod_small, slab_offset_range, H.
Qed.

(** The slab at slot [i] has index [i]. *)
Lemma slab_to_index_address (self i : Z) :
  0 <= i < SLAB_COUNT -> slab_to_index self (slab_address self i) = i.
Proof using SLAB_COUNT_BITS_range SLAB_BITS_range.
  intros H. unfold slab_to_index, pointer_diff, slab_address.
  replace (self + i * SLAB_SIZE - self) with (i * SLAB_SIZE) by lia.
  unfold to_size_t. rewrite Z.mod_small by (apply slab_offset_range, H).
  rewrite SLAB_SIZE_pow2, Z.shiftr_div_pow2 by lia.
  rewrite Z.div_mul by (apply Z.pow_nonzero; lia).
  apply to_uint8_small. pose proof SLAB_COUNT_bounds. lia.
Qed.

Lemma slab_address_inj (self i j : Z) :
  slab_address self i = slab_address self j -> i = j.
Proof using SLAB_BITS_range.
  clear SLAB_COUNT_BITS_range.
  unfold slab_address. pose proof SLAB_SIZE_pos. nia.
Qed.


(** ** The free list as a chain *)

Lemma chain_next_range (m : list Metaslab.t) (c : Z) :
  0 <= chain_next m c < SLAB_COUNT.
Proof using SLAB_COUNT_BITS_range.
  unfold chain_next. apply Z.mod_pos_bound. pose proof SLAB_COUNT_bounds. lia.
Qed.

Lemma chain_from_zero (m : list Metaslab.t) (fuel : nat) :
  chain_from m fuel 0 = Some [].
Proof. destruct fuel; reflexivity. Qed.

Lemma chain_from_step (m : list Metaslab.t) (fuel : nat) (c : Z) :
  c <> 0 ->
  chain_from m (S fuel) c = cons c <$> chain_from m fuel (chain_next m c).
Proof. intros H. simpl. destruct (Z.eqb_spec c 0); [contradiction | reflexivity]. Qed.

(** What a chain is, link by link. *)
Lemma chain_from_Some_inv (m : list Metaslab.t) (fuel : nat) (c : Z) (l : list Z) :
  chain_from m fuel c = Some l ->
  (c = 0 /\ l = []) \/
  (c <> 0 /\ exists fuel' l', fuel = S fuel' /\ l = c :: l' /\
     chain_from m fuel' (chain_next m c) = Some l').
Proof.
  intros H. destruct (Z.eq_dec c 0) as [-> | Hc].
  - left. rewrite chain_from_zero in H. split; congruence.
  - right. split; [assumption |]. destruct fuel as [| fuel'].
    + simpl in H. destruct (Z.eqb_spec c 0); [contradiction | discriminate].
    + rewrite chain_from_step in H by assumption.
      destruct (chain_from m fuel' (chain_next m c)) as [l' |] eqn:E;
        simpl in H; [| discriminate].
      exists fuel', l'. split; [reflexivity |]. split; congruence.
Qed.

Lemma chain_from_length (m : list Metaslab.t) (fuel : nat) :
  forall c l, chain_from m fuel c = Some l -> (length l <= fuel)%nat.
Proof.
  induction fuel as [| fuel IH]; intros c l H;
    apply chain_from_Some_inv in H as [[_ ->] | [Hc (f' & l' & Hf & -> & H')]];
    simpl; try lia.
  injection Hf as <-. apply IH in H'. lia.
Qed.

(** A chain does not depend on the fuel that lets it reach slot 0. *)
Lemma chain_from_enough (m : list Metaslab.t) (fuel : nat) :
  forall c l fuel', chain_from m fuel c = Some l -> (length l <= fuel')%nat ->
    chain_from m fuel' c = Some l.
Proof.
  induction fuel as [| fuel IH]; intros c l fuel' H Hlen;
    apply chain_from_Some_inv in H as [[-> ->] | [Hc (f' & l' & Hf & -> & H')]];
    try apply chain_from_zero; try discriminate.
  injection Hf as <-. simpl in Hlen.
  destruct fuel' as [| fuel']; [lia |].
  rewrite chain_from_step by assumption.
  rewrite (IH _ _ fuel' H') by lia. reflexivity.
Qed.

Lemma chain_from_fuel_mono (m : list Metaslab.t) (fuel fuel' : nat) (c : Z) (l : list Z) :
  chain_from m fuel c = Some l -> (fuel <= fuel')%nat ->
  chain_from m fuel' c = Some l.
Proof.
  intros H Hle. apply (chain_from_enough m fuel); [assumption |].
  apply chain_from_length in H. lia.
Qed.

(** Only the links of the slots on the chain matter. *)
Lemma chain_from_frame (m m' : list Metaslab.t) (fuel : nat) :
  forall c l, chain_from m fuel c = Some l ->
    (forall x, x ∈ l -> chain_next m' x = chain_next m x) ->
    chain_from m' fuel c = Some l.
Proof.
  induction fuel as [| fuel IH]; intros c l H Hsame;
    apply chain_from_Some_inv in H as [[-> ->] | [Hc (f' & l' & Hf & -> & H')]];
    try apply chain_from_zero; try discriminate.
  injection Hf as <-.
  rewrite chain_from_step by assumption.
  rewrite (Hsame c) by (left).
  rewrite (IH _ _ H'); [reflexivity |].
  intros x Hx. apply Hsame. right. exact Hx.
Qed.

(** Two arrays with the same links have the same chains. *)
Lemma chain_from_ext (m m' : list Metaslab.t) (fuel : nat) :
  (forall x, chain_next m' x = chain_next m x) ->
  forall c, chain_from m' fuel c = chain_from m fuel c.
Proof.
  intros Hsame. induction fuel as [| fuel IH]; intros c; simpl.
  - reflexivity.
  - rewrite Hsame, IH. reflexivity.
Qed.

(** The slots of a chain are regular slots. *)
Lemma chain_from_regular (m : list Metaslab.t) (fuel : nat) :
  forall c l, chain_from m fuel c = Some l -> 0 <= c < SLAB_COUNT ->
    forall x, x ∈ l -> 1 <= x < SLAB_COUNT.
Proof using SLAB_COUNT_BITS_range.
  induction fuel as [| fuel IH]; intros c l H Hr x Hx;
    apply chain_from_Some_inv in H as [[-> ->] | [Hc (f' & l' & Hf & -> & H')]];
    try (apply elem_of_nil in Hx; contradiction); try discriminate.
  injection Hf as <-.
  apply elem_of_cons in Hx as [-> | Hx]; [lia |].
  exact (IH _ _ H' (chain_next_range m c) x Hx).
Qed.

(** From a slot of a chain, the chain goes on to slot 0. *)
Lemma chain_from_elem (m : list Metaslab.t) (fuel : nat) :
  forall c l x, chain_from m fuel c = Some l -> x ∈ l ->
    exists l2, chain_from m fuel x = Some l2 /\ (length l2 <= length l)%nat.
Proof.
  induction fuel as [| fuel IH]; intros c l x H Hx;
    pose proof H as H0;
    apply chain_from_Some_inv in H as [[-> ->] | [Hc (f' & l' & Hf & -> & H')]];
    try (apply elem_of_nil in Hx; contradiction); try discriminate.
  injection Hf as <-.
  apply elem_of_cons in Hx as [-> | Hx].
  - exists (c :: l'). split; [assumption | lia].
  - destruct (IH _ _ x H' Hx) as (l2 & E & Hlen).
    exists l2. split; [| simpl; lia].
    apply (chain_from_fuel_mono m fuel); [assumption | lia].
Qed.

(** A chain that reaches slot 0 meets no slot twice. *)
Lemma chain_from_NoDup (m : list Metaslab.t) (fuel : nat) :
  forall c l, chain_from m fuel c = Some l -> NoDup l.
Proof.
  induction fuel as [| fuel IH]; intros c l H;
    pose proof H as H0;
    apply chain_from_Some_inv in H as [[-> ->] | [Hc (f' & l' & Hf & -> & H')]];
    try apply NoDup_nil_2; try discriminate.
  injection Hf as <-.
  apply NoDup_cons_2; [| exact (IH _ _ H')].
  intros Hin.
  destruct (chain_from_elem m fuel _ _ c H' Hin) as (l2 & E & Hlen).
  apply (chain_from_fuel_mono m fuel (S fuel)) in E; [| lia].
  rewrite E in H0. injection H0 as ->. simpl in Hlen. lia.
Qed.

(** Walking as many links as the chain has slots ends on slot 0. *)
Lemma walk_chain (m : list Metaslab.t) (fuel : nat) :
  forall c l, chain_from m fuel c = Some l -> walk m (length l) c = 0.
Proof.
  induction fuel as [| fuel IH]; intros c l H;
    apply chain_from_Some_inv in H as [[-> ->] | [Hc (f' & l' & Hf & -> & H')]];
    try reflexivity; try discriminate.
  injection Hf as <-. unfold walk. simpl length.
  rewrite Nat.iter_succ_r. exact (IH _ _ H').
Qed.

(** Walking fewer links stays on the chain, away from slot 0. *)
Lemma walk_chain_lt (m : list Metaslab.t) (fuel : nat) :
  forall c l n, chain_from m fuel c = Some l -> (n < length l)%nat ->
    l !! n = Some (walk m n c).
Proof.
  induction fuel as [| fuel IH]; intros c l n H Hn;
    apply chain_from_Some_inv in H as [[-> ->] | [Hc (f' & l' & Hf & -> & H')]];
    try (simpl in Hn; lia); try discriminate.
  injection Hf as <-. destruct n as [| n]; [reflexivity |].
  unfold walk. rewrite Nat.iter_succ_r. simpl in Hn |- *.
  apply (IH _ _ n H'). lia.
Qed.


(** ** The all-zero array *)

Lemma chain_from_zero_links (m : list Metaslab.t) :
  (forall i, 0 <= i < SLAB_COUNT -> Metaslab.next (m !!! Z.to_nat i) = 0) ->
  forall (n : nat) (c : Z) (fuel : nat),
    1 <= c -> c + Z.of_nat n = SLAB_COUNT -> (n <= fuel)%nat ->
    chain_from m fuel (c mod SLAB_COUNT) = Some (seqZ c (Z.of_nat n)).
Proof using SLAB_COUNT_BITS_range.
  intros Hz. induction n as [| n IH]; intros c fuel Hc Hsum Hfuel.
  - replace c with SLAB_COUNT by lia. rewrite Z.mod_same by lia.
    apply chain_from_zero.
  - rewrite Z.mod_small by lia.
    destruct fuel as [| fuel]; [lia |].
    rewrite chain_from_step by lia.
    unfold chain_next at 1. rewrite Hz by lia.
    replace (c + 0 + 1) with (c + 1) by lia.
    rewrite (IH (c + 1) fuel) by lia.
    rewrite (seqZ_cons c) by lia. simpl. do 3 f_equal; lia.
Qed.

Lemma lookup_total_replicate_default (n i : nat) :
  replicate n Metaslab.default !!! i = Metaslab.default.
Proof.
  rewrite list_lookup_total_alt.
  destruct (replicate n Metaslab.default !! i) as [x |] eqn:E; [| reflexivity].
  apply lookup_replicate_1 in E as [-> _]. reflexivity.
Qed.

(** The loop of [init] over the array leaves every record in its default
    state, and nothing else is written. *)
Lemma reset_meta_prefix (s : Superslab) (k : nat) :
  (k <= length (meta s))%nat -> length (meta s) = Z.to_nat SLAB_COUNT ->
  foldl (fun s' i => set_meta_at (Z.of_nat i) Metaslab.default s') s (seq 0 k)
  = with_meta (replicate k Metaslab.default ++ drop k (meta s)) s.
Proof using SLAB_COUNT_BITS_range.
  intros Hk Hlen. induction k as [| k IH].
  - simpl. rewrite drop_0. destruct s; reflexivity.
  - rewrite seq_S, foldl_snoc, IH by lia. simpl.
    unfold set_meta_at, with_meta. simpl. f_equal.
    rewrite ModArray_index_small by lia. rewrite Nat2Z.id.
    destruct (lookup_lt_is_Some_2 (meta s) k ltac:(lia)) as [x Hx].
    rewrite (drop_S _ _ _ Hx).
    rewrite insert_app_r_alt by (rewrite length_replicate; lia).
    rewrite length_replicate, Nat.sub_diag.
    transitivity ((replicate k Metaslab.default ++ [Metaslab.default])
                    ++ drop (S k) (meta s)).
    + rewrite <- app_assoc. reflexivity.
    + rewrite <- replicate_S_end. reflexivity.
Qed.

Lemma reset_meta_spec (s : Superslab) :
  length (meta s) = Z.to_nat SLAB_COUNT ->
  reset_meta s = with_meta (replicate (Z.to_nat SLAB_COUNT) Metaslab.default) s.
Proof using SLAB_COUNT_BITS_range.
  intros Hlen. unfold reset_meta. rewrite reset_meta_prefix by lia.
  rewrite <- Hlen at 2. rewrite drop_all, app_nil_r. reflexivity.
Qed.


(** ** Bits of [used] *)

Lemma land_1_odd (u : Z) : (Z.land u 1 =? 1) = Z.odd u.
Proof.
  change 1 with (Z.ones 1) at 1. rewrite Z.land_ones by lia.
  change (2 ^ 1) with 2. rewrite Zmod_odd. destruct (Z.odd u); reflexivity.
Qed.

Lemma shiftr_1_half (u : Z) : Z.shiftr u 1 = u / 2.
Proof. rewrite Z.shiftr_div_pow2 by lia. reflexivity. Qed.

Lemma odd_half (u : Z) : Z.odd u = true -> u = 2 * (u / 2) + 1.
Proof.
  intros H. pose proof (Zmod_odd u) as E. rewrite H in E.
  pose proof (Z.div_mod u 2 ltac:(lia)). lia.
Qed.

Lemma even_half (u : Z) : Z.even u = true -> u = 2 * (u / 2).
Proof.
  intros H. pose proof (Zmod_even u) as E. rewrite H in E.
  pose proof (Z.div_mod u 2 ltac:(lia)). lia.
Qed.

Lemma shiftr_succ_even (u : Z) :
  Z.even u = true -> Z.shiftr (u + 1) 1 = Z.shiftr u 1.
Proof.
  intros H. rewrite !shiftr_1_half. symmetry.
  apply (Z.div_unique (u + 1) 2 (u / 2) 1); [lia |].
  pose proof (even_half u H). lia.
Qed.

Lemma shiftr_pred_odd (u : Z) :
  Z.odd u = true -> Z.shiftr (u - 1) 1 = Z.shiftr u 1.
Proof.
  intros H. rewrite !shiftr_1_half. symmetry.
  apply (Z.div_unique (u - 1) 2 (u / 2) 0); [lia |].
  pose proof (odd_half u H). lia.
Qed.

(** ** Writes to one record *)

Lemma insert_next_same (m : list Metaslab.t) (i : nat) (x : Metaslab.t) :
  Metaslab.next x = Metaslab.next (m !!! i) ->
  forall j, Metaslab.next (<[i := x]> m !!! j) = Metaslab.next (m !!! j).
Proof.
  intros Hx j. destruct (decide (i = j)) as [<- | Hne].
  - destruct (decide (i < length m)%nat) as [Hlt | Hge].
    + rewrite list_lookup_total_insert_eq by assumption. exact Hx.
    + rewrite list_insert_ge by lia. reflexivity.
  - rewrite list_lookup_total_insert_ne by assumption. reflexivity.
Qed.

Lemma chain_next_insert_same (m : list Metaslab.t) (i : nat) (x : Metaslab.t) :
  Metaslab.next x = Metaslab.next (m !!! i) ->
  forall c, chain_next (<[i := x]> m) c = chain_next m c.
Proof.
  intros Hx c. unfold chain_next. rewrite (insert_next_same m i x Hx). reflexivity.
Qed.

Lemma chain_next_insert_ne (m : list Metaslab.t) (i : Z) (x : Metaslab.t) (c : Z) :
  0 <= i -> 0 <= c -> c <> i ->
  chain_next (<[Z.to_nat i := x]> m) c = chain_next m c.
Proof.
  intros Hi Hc Hne. unfold chain_next.
  rewrite list_lookup_total_insert_ne by lia. reflexivity.
Qed.

(** The link from the head is the one [alloc_slab] follows. *)
Lemma head_after_alloc_slab (self : Z) (s : Superslab) (sizeclass : Z) :
  Mod_get (head (alloc_slab self s sizeclass).2)
  = chain_next (meta s) (Mod_get (head s)).
Proof using SLAB_COUNT_BITS_range.
  unfold alloc_slab. simpl. rewrite Mod_get_set. unfold chain_next, meta_at.
  rewrite ModArray_index_small by apply Mod_get_range. reflexivity.
Qed.

(** The body of the debug walk is one link of the chain. *)
Lemma debug_step_chain_next (s : Superslab) (curr : Z) :
  Mod_get (debug_step s curr) = chain_next (meta s) (Mod_get curr).
Proof using SLAB_COUNT_BITS_range.
  unfold debug_step. rewrite Mod_get_set.
  fold (Mod_get (Mod_get curr + Metaslab.next (meta_at s (Mod_get curr)) + 1)).
  rewrite Mod_get_mod, Z.mod_mod by (pose proof SLAB_COUNT_bounds; lia).
  unfold chain_next, meta_at.
  rewrite ModArray_index_small by apply Mod_get_range.
  rewrite <- Mod_get_mod. reflexivity.
Qed.

Lemma debug_walk_chain (s : Superslab) (n : nat) (curr : Z) :
  Mod_get (Nat.iter n (debug_step s) curr) = walk (meta s) n (Mod_get curr).
Proof using SLAB_COUNT_BITS_range.
  induction n as [| n IH]; [reflexivity |].
  unfold walk in *. simpl. rewrite debug_step_chain_next, IH. reflexivity.
Qed.


(** ** The invariant is kept *)

Lemma invariant_chain_inv (s : Superslab) :
  invariant s = true <-> exists l, chain_inv s l.
Proof.
  unfold invariant, meta_ok, used_ok, free_list_ok, chain_inv. split.
  - intros H. apply andb_prop in H as [H H3]. apply andb_prop in H as [H1 H2].
    apply bool_decide_eq_true in H1. apply andb_prop in H2 as [H2 H2'].
    destruct (free_list s) as [l |]; [| discriminate].
    exists l. repeat split; try lia; reflexivity.
  - intros (l & H1 & H2 & -> & H4).
    rewrite bool_decide_eq_true_2 by assumption.
    repeat (apply andb_true_intro; split); lia.
Qed.

Lemma Mod_get_head_range (s : Superslab) : 0 <= Mod_get (head s) < SLAB_COUNT.
Proof using SLAB_COUNT_BITS_range. apply Mod_get_range. Qed.

Lemma is_almost_full_false (s : Superslab) :
  is_almost_full s = false <-> used s < 2 * (SLAB_COUNT - 1).
Proof.
  unfold is_almost_full. rewrite shiftl_1_double.
  destruct (Z.geb_spec (used s) (2 * (SLAB_COUNT - 1))); split; intros;
    try discriminate; try lia; reflexivity.
Qed.

(** [alloc_slab] takes the first slot of the free list. *)
Lemma alloc_slab_chain_inv (self : Z) (s : Superslab) (sizeclass : Z) (l : list Z) :
  chain_inv s l -> is_almost_full s = false ->
  exists l', l = Mod_get (head s) :: l' /\
    1 <= Mod_get (head s) < SLAB_COUNT /\
    (alloc_slab self s sizeclass).1 = slab_address self (Mod_get (head s)) /\
    used (alloc_slab self s sizeclass).2 = used s + 2 /\
    chain_inv (alloc_slab self s sizeclass).2 l'.
Proof using SLAB_COUNT_BITS_range SLAB_BITS_range.
  intros (Hlen & Hused & Hl & Hcount) Hnf.
  apply is_almost_full_false in Hnf.
  pose proof SLAB_COUNT_bounds as HC.
  pose proof (Mod_get_head_range s) as Hh.
  rewrite shiftr_1_half in Hcount.
  assert (Hhalf : used s / 2 < SLAB_COUNT - 1)
    by (apply Z.div_lt_upper_bound; lia).
  unfold free_list in Hl. pose proof Hl as Hl0.
  apply chain_from_Some_inv in Hl as [[_ ->] | [Hne (f' & l' & Hf & -> & Hl')]];
    [simpl in Hcount; lia |].
  exists l'. split; [reflexivity |]. split; [lia |].
  assert (Hu : used (alloc_slab self s sizeclass).2 = used s + 2).
  { unfold alloc_slab. simpl. apply to_uint16_small. lia. }
  split.
  { unfold alloc_slab, pointer_offset, slab_address. simpl.
    rewrite slab_offset_size_t by assumption. reflexivity. }
  split; [exact Hu |].
  unfold chain_inv. rewrite Hu. split.
  { unfold alloc_slab. simpl. rewrite length_insert. exact Hlen. }
  split; [lia |]. split.
  - unfold free_list. rewrite head_after_alloc_slab.
    unfold alloc_slab. simpl.
    rewrite (chain_from_ext (meta s)).
    + apply (chain_from_fuel_mono _ f'); [exact Hl' | lia].
    + apply chain_next_insert_same. reflexivity.
  - rewrite shiftr_1_half. simpl in Hcount.
    replace (used s + 2) with (used s + 1 * 2) by lia.
    rewrite Z.div_add by lia. lia.
Qed.

(** [dealloc_slab] puts a slot that is in use in front of the free list. *)
Lemma dealloc_slab_chain_inv (self : Z) (s : Superslab) (i : Z) (l : list Z) :
  chain_inv s l -> 1 <= i < SLAB_COUNT -> i ∉ l -> 2 <= used s ->
  used (dealloc_slab self s (slab_address self i)).2 = used s - 2 /\
  chain_inv (dealloc_slab self s (slab_address self i)).2 (i :: l).
Proof using SLAB_COUNT_BITS_range SLAB_BITS_range.
  intros (Hlen & Hused & Hl & Hcount) Hi Hnotin H2.
  pose proof SLAB_COUNT_bounds as HC.
  pose proof (Mod_get_head_range s) as Hh.
  rewrite shiftr_1_half in Hcount.
  assert (Hhalf : 1 <= used s / 2) by (apply Z.div_le_lower_bound; lia).
  assert (Hu : used (dealloc_slab self s (slab_address self i)).2 = used s - 2).
  { unfold dealloc_slab.
    destruct (_ || _); simpl; apply to_uint16_small; lia. }
  split; [exact Hu |].
  unfold chain_inv. rewrite Hu.
  assert (Hidx : to_uint8 (slab_to_index self (slab_address self i)) = i).
  { rewrite slab_to_index_address by lia. apply to_uint8_small. lia. }
  assert (Hmeta : meta (dealloc_slab self s (slab_address self i)).2
            = <[Z.to_nat i :=
                  Metaslab.set_next (to_uint8 (Mod_get (head s) - i - 1))
                    (Metaslab.set_sizeclass 0 (meta s !!! Z.to_nat i))]> (meta s)).
  { unfold dealloc_slab. rewrite Hidx.
    destruct (_ || _); simpl; unfold meta_at, set_meta_at; simpl;
      rewrite ModArray_index_small by lia;
      rewrite list_lookup_total_insert_eq by lia;
      rewrite list_insert_insert_eq; reflexivity. }
  assert (Hhead : head (dealloc_slab self s (slab_address self i)).2 = Mod_set i).
  { unfold dealloc_slab. rewrite Hidx. destruct (_ || _); reflexivity. }
  split; [rewrite Hmeta, length_insert; exact Hlen |].
  split; [lia |]. split.
  - unfold free_list. rewrite Hhead, Hmeta, Mod_get_set.
    rewrite Z.mod_small by lia.
    assert (Hshort : (length l < Z.to_nat SLAB_COUNT)%nat) by lia.
    destruct (Z.to_nat SLAB_COUNT) as [| fuel] eqn:Efuel; [lia |].
    rewrite chain_from_step by lia.
    assert (Hnext : chain_next
              (<[Z.to_nat i :=
                   Metaslab.set_next (to_uint8 (Mod_get (head s) - i - 1))
                     (Metaslab.set_sizeclass 0 (meta s !!! Z.to_nat i))]> (meta s)) i
            = Mod_get (head s)).
    { unfold chain_next. rewrite list_lookup_total_insert_eq by lia. simpl.
      rewrite <- Z.add_assoc, Z.add_comm, <- Z.add_assoc.
      rewrite <- Zplus_mod_idemp_l, to_uint8_mod_SLAB_COUNT, Zplus_mod_idemp_l.
      replace (Mod_get (head s) - i - 1 + (1 + i)) with (Mod_get (head s)) by lia.
      apply Z.mod_small. exact Hh. }
    rewrite Hnext.
    rewrite (chain_from_frame (meta s) _ fuel _ l); [reflexivity | |].
    + apply (chain_from_enough _ _ _ _ _ Hl). lia.
    + intros x Hx. apply chain_next_insert_ne; try lia.
      * pose proof (chain_from_regular _ _ _ _ Hl Hh x Hx). lia.
      * intros ->. contradiction.
  - rewrite shiftr_1_half. simpl length.
    replace (used s - 2) with (used s + (-1) * 2) by lia.
    rewrite Z.div_add by lia. lia.
Qed.


Lemma ModArray_index_0 : ModArray_index 0 = 0%nat.
Proof. unfold ModArray_index. rewrite Z.land_0_l. reflexivity. Qed.

(** [alloc_short_slab] on a free short slab writes the record of slot 0 and
    the counter, nothing else. *)
Lemma alloc_short_slab_even (self : Z) (s : Superslab) (sizeclass : Z) :
  Z.even (used s) = true ->
  alloc_short_slab self s sizeclass =
  (self,
   with_used (to_uint16 (used s + 1))
     (with_meta
        (<[0%nat := Metaslab.set_sizeclass (to_uint8 sizeclass)
                      (Metaslab.set_full
                         (Metaslab.free_queue_init (meta s !!! 0%nat)))]> (meta s))
        s)).
Proof.
  intros He. unfold alloc_short_slab.
  rewrite land_1_odd, <- Z.negb_even, He. simpl.
  unfold set_meta_at, meta_at. rewrite ModArray_index_0. reflexivity.
Qed.

Lemma alloc_short_slab_odd (self : Z) (s : Superslab) (sizeclass : Z) :
  Z.odd (used s) = true ->
  alloc_short_slab self s sizeclass = alloc_slab self s sizeclass.
Proof.
  intros Ho. unfold alloc_short_slab. rewrite land_1_odd, Ho. reflexivity.
Qed.

Lemma alloc_short_slab_chain_inv (self : Z) (s : Superslab) (sizeclass : Z) (l : list Z) :
  chain_inv s l -> Z.even (used s) = true ->
  used (alloc_short_slab self s sizeclass).2 = used s + 1 /\
  Z.shiftr (used (alloc_short_slab self s sizeclass).2) 1 = Z.shiftr (used s) 1 /\
  chain_inv (alloc_short_slab self s sizeclass).2 l.
Proof using SLAB_COUNT_BITS_range.
  intros (Hlen & Hused & Hl & Hcount) He.
  pose proof SLAB_COUNT_bounds as HC.
  rewrite alloc_short_slab_even by assumption. simpl.
  pose proof (even_half _ He) as Hhalf.
  rewrite to_uint16_small by lia.
  assert (Hsh : Z.shiftr (used s + 1) 1 = Z.shiftr (used s) 1)
    by (apply shiftr_succ_even, He).
  split; [reflexivity |]. split; [exact Hsh |].
  unfold chain_inv, free_list. simpl.
  rewrite length_insert, Hsh.
  split; [exact Hlen |]. split; [lia |]. split; [| exact Hcount].
  rewrite (chain_from_ext (meta s)); [exact Hl |].
  apply chain_next_insert_same. reflexivity.
Qed.

Lemma dealloc_short_slab_state (s : Superslab) :
  (dealloc_short_slab s).2 = with_used (to_uint16 (used s - 1)) s.
Proof. unfold dealloc_short_slab. destruct (_ || _); reflexivity. Qed.

Lemma dealloc_short_slab_chain_inv (s : Superslab) (l : list Z) :
  chain_inv s l -> Z.odd (used s) = true ->
  used (dealloc_short_slab s).2 = used s - 1 /\
  Z.shiftr (used (dealloc_short_slab s).2) 1 = Z.shiftr (used s) 1 /\
  chain_inv (dealloc_short_slab s).2 l.
Proof using SLAB_COUNT_BITS_range.
  intros (Hlen & Hused & Hl & Hcount) Ho.
  pose proof SLAB_COUNT_bounds as HC.
  rewrite dealloc_short_slab_state. simpl.
  pose proof (odd_half _ Ho) as Hhalf.
  rewrite to_uint16_small by lia.
  assert (Hsh : Z.shiftr (used s - 1) 1 = Z.shiftr (used s) 1)
    by (apply shiftr_pred_odd, Ho).
  split; [reflexivity |]. split; [exact Hsh |].
  unfold chain_inv, free_list. simpl. rewrite Hsh.
  split; [exact Hlen |]. split; [lia |]. split; [exact Hl | exact Hcount].
Qed.

(** A header whose links are all zero, with [head] on slot 1 and nothing in
    use, satisfies the invariant: its free list is [1, ..., SLAB_COUNT-1]. *)
Lemma zero_links_chain_inv (s : Superslab) :
  length (meta s) = Z.to_nat SLAB_COUNT ->
  (forall i, 0 <= i < SLAB_COUNT -> Metaslab.next (meta s !!! Z.to_nat i) = 0) ->
  Mod_get (head s) = 1 -> used s = 0 ->
  chain_inv s (seqZ 1 (SLAB_COUNT - 1)).
Proof using SLAB_COUNT_BITS_range.
  intros Hlen Hz Hh Hu. pose proof SLAB_COUNT_bounds as HC.
  unfold chain_inv, free_list. rewrite Hh, Hu, length_seqZ.
  split; [exact Hlen |]. split; [lia |]. split.
  - pose proof (chain_from_zero_links (meta s) Hz (Z.to_nat (SLAB_COUNT - 1)) 1
                  (Z.to_nat SLAB_COUNT)) as H.
    rewrite Z.mod_small, Z2Nat.id in H by lia. apply H; lia.
  - rewrite Z.shiftr_0_l. lia.
Qed.

Lemma Mod_get_set_1 : Mod_get (Mod_set 1) = 1.
Proof using SLAB_COUNT_BITS_range.
  rewrite Mod_get_set. apply Z.mod_small. pose proof SLAB_COUNT_bounds. lia.
Qed.

Lemma replicate_default_next (n : nat) (i : Z) :
  Metaslab.next (replicate n Metaslab.default !!! Z.to_nat i) = 0.
Proof. rewrite lookup_total_replicate_default. reflexivity. Qed.

(** [init] on fresh, zero-filled memory writes no record. *)
Lemma init_fresh (alloc : Z) (s : Superslab) :
  kind s = Fresh ->
  init alloc s = with_head (Mod_set 1) (with_kind Super (with_allocator alloc s)).
Proof.
  intros Hk. unfold init. simpl. rewrite Hk. reflexivity.
Qed.

(** [init] on memory that held something else rebuilds the header. *)
Lemma init_reset (alloc : Z) (s : Superslab) :
  kind s <> Fresh ->
  kind s <> Super \/ OS_PAGE_SIZE <= sizeof_Superslab ->
  length (meta s) = Z.to_nat SLAB_COUNT ->
  init alloc s =
  mkSuperslab Super alloc (Mod_set 1) 0
              (replicate (Z.to_nat SLAB_COUNT) Metaslab.default).
Proof using SLAB_COUNT_BITS_range.
  intros Hf Hc Hlen. unfold init. simpl.
  assert (E : negb (bool_decide (kind s = Super))
              || (sizeof_Superslab >=? OS_PAGE_SIZE) = true).
  { destruct Hc as [Hc | Hc].
    - rewrite bool_decide_eq_false_2 by assumption. reflexivity.
    - apply orb_true_iff. right. apply Z.geb_le. exact Hc. }
  rewrite E. rewrite (bool_decide_eq_false_2 _ Hf). simpl.
  rewrite reset_meta_spec by exact Hlen. reflexivity.
Qed.

(** [init] on a superslab whose header is smaller than a page changes the
    owner only. *)
Lemma init_keep (alloc : Z) (s : Superslab) :
  kind s = Super -> sizeof_Superslab < OS_PAGE_SIZE ->
  init alloc s = with_allocator alloc s.
Proof.
  intros Hk Hc. unfold init. simpl. rewrite Hk. simpl.
  destruct (Z.geb_spec sizeof_Superslab OS_PAGE_SIZE); [lia | reflexivity].
Qed.

Lemma init_kind (alloc : Z) (s : Superslab) : kind (init alloc s) = Super.
Proof.
  unfold init. simpl.
  destruct (bool_decide (kind s = Super)) eqn:E; simpl; [| reflexivity].
  apply bool_decide_eq_true in E.
  destruct (sizeof_Superslab >=? OS_PAGE_SIZE); [reflexivity | exact E].
Qed.


(** ** Reachable states *)

Lemma filter_ne_absent (x : Z) (l : list Z) :
  x ∉ l -> filter (fun p => p <> x) l = l.
Proof.
  induction l as [| a l IH]; intros Hx; [reflexivity |].
  apply not_elem_of_cons in Hx as [Hne Hx].
  rewrite filter_cons_True by congruence. rewrite IH by assumption. reflexivity.
Qed.

Lemma length_filter_ne (x : Z) (l : list Z) :
  NoDup l -> x ∈ l -> S (length (filter (fun p => p <> x) l)) = length l.
Proof.
  induction l as [| a l IH]; intros Hnd Hx.
  - apply elem_of_nil in Hx. contradiction.
  - apply NoDup_cons in Hnd as [Ha Hnd].
    apply elem_of_cons in Hx as [-> | Hx].
    + rewrite filter_cons_False by (intros H; apply H; reflexivity).
      rewrite filter_ne_absent by assumption. reflexivity.
    + rewrite filter_cons_True by (intros ->; contradiction).
      simpl. rewrite IH by assumption. reflexivity.
Qed.

Lemma alloc_slab_kind (self : Z) (s : Superslab) (sizeclass : Z) :
  kind (alloc_slab self s sizeclass).2 = kind s.
Proof. reflexivity. Qed.

Lemma dealloc_slab_kind (self : Z) (s : Superslab) (slab : Z) :
  kind (dealloc_slab self s slab).2 = kind s.
Proof. unfold dealloc_slab. destruct (_ || _); reflexivity. Qed.

(** The slab that [alloc_slab] returns joins the slabs handed out. *)
Lemma alloc_slab_out_inv (self : Z) (s : Superslab) (sizeclass : Z) (l out : list Z) :
  chain_inv s l -> out_inv self s l out -> is_almost_full s = false ->
  exists l', l = Mod_get (head s) :: l' /\
    chain_inv (alloc_slab self s sizeclass).2 l' /\
    out_inv self (alloc_slab self s sizeclass).2 l'
            ((alloc_slab self s sizeclass).1 :: out).
Proof using SLAB_COUNT_BITS_range SLAB_BITS_range.
  intros Hinv (Hnd & Hlen & Hout) Hnf.
  destruct (alloc_slab_chain_inv self s sizeclass l Hinv Hnf)
    as (l' & -> & Hh & Haddr & Hu & Hinv').
  exists l'. split; [reflexivity |]. split; [exact Hinv' |].
  destruct Hinv as (_ & _ & Hl & _).
  apply chain_from_NoDup, NoDup_cons in Hl as [Hhl' _].
  rewrite Haddr. unfold out_inv. rewrite Hu. split; [| split].
  - apply NoDup_cons. split; [| exact Hnd].
    intros Hin. destruct (Hout _ Hin) as (i & _ & E & Hi).
    apply slab_address_inj in E as <-. apply Hi. left.
  - simpl length. rewrite Nat2Z.inj_succ, Hlen, !shiftr_1_half.
    replace (used s + 2) with (used s + 1 * 2) by lia.
    rewrite Z.div_add by lia. lia.
  - intros p Hp. apply elem_of_cons in Hp as [-> | Hp].
    + exists (Mod_get (head s)). split; [exact Hh |]. split; [reflexivity | exact Hhl'].
    + destruct (Hout _ Hp) as (i & Hi & E & Hnot).
      exists i. split; [exact Hi |]. split; [exact E |].
      intros Hin. apply Hnot. right. exact Hin.
Qed.

(** A slab handed out leaves them when [dealloc_slab] takes it back. *)
Lemma dealloc_slab_out_inv (self : Z) (s : Superslab) (slab : Z) (l out : list Z) :
  chain_inv s l -> out_inv self s l out -> slab ∈ out ->
  exists i, 1 <= i < SLAB_COUNT /\ slab = slab_address self i /\ (i ∉ l) /\
    2 <= used s /\
    chain_inv (dealloc_slab self s slab).2 (i :: l) /\
    out_inv self (dealloc_slab self s slab).2 (i :: l)
            (filter (fun p => p <> slab) out).
Proof using SLAB_COUNT_BITS_range SLAB_BITS_range.
  intros Hinv (Hnd & Hlen & Hout) Hin.
  destruct (Hout _ Hin) as (i & Hi & -> & Hnot).
  assert (H2 : 2 <= used s).
  { pose proof (length_filter_ne _ _ Hnd Hin) as E.
    rewrite shiftr_1_half in Hlen.
    assert (1 <= used s / 2) by lia.
    pose proof (Z.mul_div_le (used s) 2 ltac:(lia)). lia. }
  destruct (dealloc_slab_chain_inv self s i l Hinv Hi Hnot H2) as (Hu & Hinv').
  exists i. repeat (split; [assumption || reflexivity |]).
  unfold out_inv. rewrite Hu. split; [| split].
  - apply NoDup_filter, Hnd.
  - pose proof (length_filter_ne _ _ Hnd Hin) as E.
    rewrite !shiftr_1_half in *.
    replace (used s - 2) with (used s + (-1) * 2) by lia.
    rewrite Z.div_add by lia. lia.
  - intros p Hp. apply list_elem_of_filter in Hp as [Hne Hp].
    destruct (Hout _ Hp) as (j & Hj & -> & Hjl).
    exists j. split; [exact Hj |]. split; [reflexivity |].
    intros Hjin. apply elem_of_cons in Hjin as [-> | Hjin]; [| contradiction].
    apply Hne. reflexivity.
Qed.

(** The record of a slot that is off the free list can be rewritten. *)
Lemma set_meta_at_chain_inv (s : Superslab) (l : list Z) (i : Z) (m : Metaslab.t) :
  chain_inv s l -> 0 <= i < SLAB_COUNT -> i ∉ l ->
  chain_inv (set_meta_at i m s) l.
Proof using SLAB_COUNT_BITS_range.
  intros (Hlen & Hused & Hl & Hcount) Hi Hnot.
  unfold chain_inv, free_list, set_meta_at. simpl.
  rewrite length_insert, ModArray_index_small by exact Hi.
  split; [exact Hlen |]. split; [exact Hused |]. split; [| exact Hcount].
  apply (chain_from_frame (meta s)); [exact Hl |].
  intros x Hx. apply chain_next_insert_ne; try lia.
  - pose proof (chain_from_regular _ _ _ _ Hl (Mod_get_head_range s) x Hx). lia.
  - intros ->. contradiction.
Qed.

(** Every reachable state is a superslab that satisfies the invariant, and
    the slabs handed out are the regular slots off its free list. *)
Lemma reachable_inv (self : Z) (s : Superslab) (out : list Z) :
  reachable self s out ->
  kind s = Super /\ exists l, chain_inv s l /\ out_inv self s l out.
Proof using SLAB_COUNT_BITS_range SLAB_BITS_range.
  assert (Hnil : forall s' l, used s' = 0 -> out_inv self s' l []).
  { intros s' l E. unfold out_inv. rewrite E. split; [apply NoDup_nil_2 |].
    split; [reflexivity |]. intros p Hp. apply elem_of_nil in Hp. contradiction. }
  induction 1 as
    [ alloc s Hk (Hh & Hu & Hm)
    | alloc s Hk Hlen
    | alloc s Hr IH He
    | s out sc Hr IH Hnf
    | s out sc Hr IH He
    | s out sc Hr IH Ho Hnf
    | s out slab Hr IH Hin
    | s out Hr IH Ho
    | s out slab m Hr IH Hin
    | s out m Hr IH Ho ].
  - split; [apply init_kind |]. exists (seqZ 1 (SLAB_COUNT - 1)).
    rewrite init_fresh by assumption.
    split; [| apply Hnil; exact Hu].
    apply zero_links_chain_inv; simpl.
    + rewrite Hm, length_replicate. reflexivity.
    + intros i _. rewrite Hm. apply replicate_default_next.
    + apply Mod_get_set_1.
    + exact Hu.
  - split; [apply init_kind |]. exists (seqZ 1 (SLAB_COUNT - 1)).
    rewrite init_reset; [| congruence | left; congruence | exact Hlen].
    split; [| apply Hnil; reflexivity].
    apply zero_links_chain_inv; simpl.
    + apply length_replicate.
    + intros i _. apply replicate_default_next.
    + apply Mod_get_set_1.
    + reflexivity.
  - destruct IH as (Hk & l & Hinv & Hout).
    split; [apply init_kind |].
    apply Z.eqb_eq in He.
    destruct (Z.lt_ge_cases sizeof_Superslab OS_PAGE_SIZE) as [Hsmall | Hbig].
    + rewrite init_keep by assumption. exists l. split; [exact Hinv | exact Hout].
    + destruct Hinv as (Hlen & _).
      rewrite init_reset; [| congruence | right; exact Hbig | exact Hlen].
      exists (seqZ 1 (SLAB_COUNT - 1)).
      split; [| apply Hnil; reflexivity].
      apply zero_links_chain_inv; simpl.
      * apply length_replicate.
      * intros i _. apply replicate_default_next.
      * apply Mod_get_set_1.
      * reflexivity.
  - destruct IH as (Hk & l & Hinv & Hout).
    split; [rewrite alloc_slab_kind; exact Hk |].
    destruct (alloc_slab_out_inv self s sc l out Hinv Hout Hnf)
      as (l' & _ & Hinv' & Hout').
    exists l'. split; assumption.
  - destruct IH as (Hk & l & Hinv & (Hnd & Hlen & Hout)).
    destruct (alloc_short_slab_chain_inv self s sc l Hinv He) as (Hu & Hsh & Hinv').
    split; [rewrite alloc_short_slab_even by assumption; exact Hk |].
    exists l. split; [exact Hinv' |].
    unfold out_inv. rewrite Hsh. split; [exact Hnd |]. split; [exact Hlen | exact Hout].
  - destruct IH as (Hk & l & Hinv & Hout).
    rewrite alloc_short_slab_odd by assumption.
    split; [rewrite alloc_slab_kind; exact Hk |].
    destruct (alloc_slab_out_inv self s sc l out Hinv Hout Hnf)
      as (l' & _ & Hinv' & Hout').
    exists l'. split; assumption.
  - destruct IH as (Hk & l & Hinv & Hout).
    split; [rewrite dealloc_slab_kind; exact Hk |].
    destruct (dealloc_slab_out_inv self s slab l out Hinv Hout Hin)
      as (i & _ & _ & _ & _ & Hinv' & Hout').
    exists (i :: l). split; assumption.
  - destruct IH as (Hk & l & Hinv & (Hnd & Hlen & Hout)).
    destruct (dealloc_short_slab_chain_inv s l Hinv Ho) as (Hu & Hsh & Hinv').
    split; [rewrite dealloc_short_slab_state; exact Hk |].
    exists l. split; [exact Hinv' |].
    unfold out_inv. rewrite Hsh. split; [exact Hnd |]. split; [exact Hlen | exact Hout].
  - destruct IH as (Hk & l & Hinv & Hout).
    split; [exact Hk |]. exists l. split; [| exact Hout].
    destruct Hout as (_ & _ & Hout).
    destruct (Hout _ Hin) as (i & Hi & -> & Hnot).
    pose proof SLAB_COUNT_bounds as HC.
    rewrite slab_to_index_address by lia.
    apply set_meta_at_chain_inv; [exact Hinv | lia | exact Hnot].
  - destruct IH as (Hk & l & Hinv & Hout).
    split; [exact Hk |]. exists l. split; [| exact Hout].
    pose proof SLAB_COUNT_bounds as HC.
    apply set_meta_at_chain_inv; [exact Hinv | lia |].
    intros H0. destruct Hinv as (_ & _ & Hl & _).
    pose proof (chain_from_regular _ _ _ _ Hl (Mod_get_head_range s) 0 H0). lia.
Qed.


(** ** The debug block of [init] *)

(** In a state that satisfies the invariant, as many links as there are
    free regular slots lead from [head] to slot 0. *)
Lemma walk_free_list (s : Superslab) :
  invariant s = true ->
  walk (meta s) (Z.to_nat (SLAB_COUNT - Z.shiftr (used s) 1 - 1)) (Mod_get (head s)) = 0.
Proof.
  intros Hinv. apply invariant_chain_inv in Hinv as (l & _ & _ & Hl & Hcount).
  replace (Z.to_nat (SLAB_COUNT - Z.shiftr (used s) 1 - 1)) with (length l) by lia.
  exact (walk_chain _ _ _ _ Hl).
Qed.

(** With nothing in use the bound of the debug walk is the length of the
    free list. *)
Lemma init_debug_steps_empty (s : Superslab) :
  used s = 0 ->
  init_debug_steps s = Z.to_nat (SLAB_COUNT - Z.shiftr (used s) 1 - 1).
Proof using SLAB_COUNT_BITS_range.
  intros Hu. pose proof SLAB_COUNT_bounds as HC.
  unfold init_debug_steps, to_size_t. rewrite Hu, Z.shiftr_0_l.
  rewrite Z.mod_small by lia. f_equal; lia.
Qed.

Lemma init_debug_walk_lands (s : Superslab) :
  invariant s = true -> used s = 0 -> Mod_get (init_debug_walk s) = 0.
Proof using SLAB_COUNT_BITS_range.
  intros Hinv Hu. unfold init_debug_walk.
  rewrite debug_walk_chain, init_debug_steps_empty by exact Hu.
  apply walk_free_list, Hinv.
Qed.

Lemma init_debug_unused_default (s : Superslab) :
  meta s = replicate (Z.to_nat SLAB_COUNT) Metaslab.default ->
  init_debug_unused s = true.
Proof.
  intros Hm. unfold init_debug_unused. apply forallb_forall. intros i _.
  unfold meta_at. rewrite Hm, lookup_total_replicate_default. reflexivity.
Qed.

(** In a debug build [init] does not abort on fresh, zero-filled memory. *)
Lemma init_debug_fresh (alloc : Z) (s : Superslab) :
  kind s = Fresh -> zero_filled s ->
  invariant (init alloc s) = true /\ init_debug alloc s = Some (init alloc s).
Proof using SLAB_COUNT_BITS_range.
  intros Hk (Hh & Hu & Hm).
  assert (Hinv : invariant (init alloc s) = true).
  { apply invariant_chain_inv. exists (seqZ 1 (SLAB_COUNT - 1)).
    rewrite init_fresh by assumption.
    apply zero_links_chain_inv; simpl.
    - rewrite Hm, length_replicate. reflexivity.
    - intros i _. rewrite Hm. apply replicate_default_next.
    - apply Mod_get_set_1.
    - exact Hu. }
  split; [exact Hinv |].
  unfold init_debug, init_debug_check.
  rewrite init_debug_walk_lands;
    [| exact Hinv | rewrite init_fresh by assumption; exact Hu].
  rewrite init_debug_unused_default;
    [reflexivity | rewrite init_fresh by assumption; exact Hm].
Qed.

(** Nor does it on memory that held something else, which it rebuilds. *)
Lemma init_debug_reset (alloc : Z) (s : Superslab) :
  kind s <> Fresh ->
  kind s <> Super \/ OS_PAGE_SIZE <= sizeof_Superslab ->
  length (meta s) = Z.to_nat SLAB_COUNT ->
  invariant (init alloc s) = true /\ init_debug alloc s = Some (init alloc s).
Proof using SLAB_COUNT_BITS_range.
  intros Hk Hc Hlen.
  pose proof (init_reset alloc s Hk Hc Hlen) as E.
  assert (Hinv : invariant (init alloc s) = true).
  { apply invariant_chain_inv. exists (seqZ 1 (SLAB_COUNT - 1)). rewrite E.
    apply zero_links_chain_inv; simpl.
    - apply length_replicate.
    - intros i _. apply replicate_default_next.
    - apply Mod_get_set_1.
    - reflexivity. }
  split; [exact Hinv |].
  unfold init_debug, init_debug_check.
  rewrite init_debug_walk_lands; [| exact Hinv | rewrite E; reflexivity].
  rewrite init_debug_unused_default; [reflexivity | rewrite E; reflexivity].
Qed.

(** ** The properties of the header *)

(** C1. Under the encoding [used = 2*k + s], with [k] regular slots allocated
    ([0 <= k <= SLAB_COUNT-1]) and [s] the short-slab bit, the four status
    queries read nothing but [used], and they return what the table of the
    data model says: [is_empty] iff [used = 0], [is_full] iff
    [used = 2*(SLAB_COUNT-1)+1], [is_almost_full] iff [k = SLAB_COUNT-1],
    and [get_status] is [Empty], [Available], [OnlyShortSlabAvailable] or
    [Full] exactly on the four ranges of [used]. *)
Theorem status_queries_spec (st : Superslab) (k s : Z) :
  0 <= k <= SLAB_COUNT - 1 ->
  s = 0 \/ s = 1 ->
  used st = 2 * k + s ->
  (forall st', used st' = used st ->
     is_empty st' = is_empty st /\ is_full st' = is_full st /\
     is_almost_full st' = is_almost_full st /\ get_status st' = get_status st) /\
  (is_empty st = true <-> used st = 0) /\
  (is_full st = true <-> used st = 2 * (SLAB_COUNT - 1) + 1) /\
  (is_almost_full st = true <-> k = SLAB_COUNT - 1) /\
  (get_status st = Empty <-> used st = 0) /\
  (get_status st = Available <-> 0 < used st < 2 * (SLAB_COUNT - 1)) /\
  (get_status st = OnlyShortSlabAvailable <-> used st = 2 * (SLAB_COUNT - 1)) /\
  (get_status st = Full <-> used st = 2 * (SLAB_COUNT - 1) + 1).
Proof using SLAB_COUNT_BITS_range.
  intros Hk Hs Hu. pose proof SLAB_COUNT_bounds as HC.
  split.
  { intros st' E. unfold get_status, is_empty, is_full, is_almost_full.
    rewrite E. auto. }
  unfold get_status, is_empty, is_full, is_almost_full.
  rewrite shiftl_1_double.
  destruct (Z.eqb_spec (used st) 0) as [E0 | E0];
    destruct (Z.eqb_spec (used st) (2 * (SLAB_COUNT - 1) + 1)) as [E1 | E1];
    destruct (Z.geb_spec (used st) (2 * (SLAB_COUNT - 1))) as [E2 | E2];
    simpl; repeat split; intros; try discriminate; try lia.
Qed.

Lemma walk_zero_links (m : list Metaslab.t) :
  (forall i, 0 <= i < SLAB_COUNT -> Metaslab.next (m !!! Z.to_nat i) = 0) ->
  forall n : nat, Z.of_nat n < SLAB_COUNT - 1 -> walk m n 1 = 1 + Z.of_nat n.
Proof using SLAB_COUNT_BITS_range.
  intros Hz. induction n as [| n IH]; intros Hn; [reflexivity |].
  unfold walk in *. simpl. rewrite IH by lia.
  unfold chain_next. rewrite Hz by lia.
  rewrite Z.mod_small by lia. lia.
Qed.

(** C2. In a header whose records all hold a zero link and whose [head] is
    1, the chain [curr := (curr + meta[curr].next + 1) mod SLAB_COUNT] from
    [head] meets the regular slots [1, 2, ..., SLAB_COUNT-1] in this order
    and then ends on slot 0.  Such is the header that [init] leaves in
    fresh, zero-filled memory, where it writes no record: the invariant
    holds of it and the debug block of [init] does not abort. *)
Theorem zero_initialised_free_list (st : Superslab) :
  (forall i, 0 <= i < SLAB_COUNT -> Metaslab.next (meta_at st i) = 0) ->
  head st = 1 ->
  free_list st = Some (seqZ 1 (SLAB_COUNT - 1)) /\
  (forall n, 0 <= n < SLAB_COUNT - 1 ->
     walk (meta st) (Z.to_nat n) (Mod_get (head st)) = 1 + n) /\
  walk (meta st) (Z.to_nat (SLAB_COUNT - 1)) (Mod_get (head st)) = 0 /\
  (forall alloc s, kind s = Fresh -> zero_filled s ->
     meta (init alloc s) = meta s /\
     (forall i, Metaslab.next (meta_at (init alloc s) i) = 0) /\
     Mod_get (head (init alloc s)) = 1 /\
     invariant (init alloc s) = true /\
     init_debug alloc s = Some (init alloc s)).
Proof using SLAB_COUNT_BITS_range.
  intros Hz Hh. pose proof SLAB_COUNT_bounds as HC.
  assert (Hz' : forall i, 0 <= i < SLAB_COUNT ->
                  Metaslab.next (meta st !!! Z.to_nat i) = 0).
  { intros i Hi. specialize (Hz i Hi). unfold meta_at in Hz.
    rewrite ModArray_index_small in Hz by assumption. exact Hz. }
  assert (Hg : Mod_get (head st) = 1) by (rewrite Hh; apply Mod_get_small; lia).
  assert (Hl : free_list st = Some (seqZ 1 (SLAB_COUNT - 1))).
  { unfold free_list. rewrite Hg.
    pose proof (chain_from_zero_links (meta st) Hz' (Z.to_nat (SLAB_COUNT - 1)) 1
                  (Z.to_nat SLAB_COUNT)) as H.
    rewrite Z.mod_small, Z2Nat.id in H by lia. apply H; lia. }
  split; [exact Hl |]. split; [| split].
  - intros n Hn. rewrite Hg, (walk_zero_links _ Hz') by lia. lia.
  - pose proof (walk_chain _ _ _ _ Hl) as H.
    rewrite length_seqZ in H. exact H.
  - intros alloc s Hk Hzero.
    destruct (init_debug_fresh alloc s Hk Hzero) as (Hinv & Hdbg).
    destruct Hzero as (Hh0 & Hu & Hm).
    rewrite init_fresh in * by assumption. simpl.
    split; [reflexivity |]. split; [| split; [| split]].
    + intros i. unfold meta_at. simpl. rewrite Hm.
      rewrite lookup_total_replicate_default. reflexivity.
    + apply Mod_get_set_1.
    + exact Hinv.
    + exact Hdbg.
Qed.

(** C3. In a state that satisfies the invariant and is not almost full,
    [alloc_slab] reads the link [n] of the slot at [head], returns the
    address of that slot, the header's plus [old_head * SLAB_SIZE], moves
    [head] to [(old_head + n + 1) mod SLAB_COUNT], records the size class in
    the slot and adds 2 to [used].  The slot is a regular one, the first of
    the free list, which it leaves; no other record changes and the
    invariant still holds. *)
Theorem alloc_slab_spec (self : Z) (st : Superslab) (sizeclass : Z) :
  invariant st = true ->
  is_almost_full st = false ->
  0 <= sizeclass < 256 ->
  let old_head := Mod_get (head st) in
  let n := Metaslab.next (meta_at st old_head) in
  let r := alloc_slab self st sizeclass in
  r.1 = self + old_head * SLAB_SIZE /\
  1 <= old_head < SLAB_COUNT /\
  Mod_get (head r.2) = (old_head + n + 1) mod SLAB_COUNT /\
  Metaslab.sizeclass (meta_at r.2 old_head) = sizeclass /\
  Metaslab.full (meta_at r.2 old_head) = true /\
  Metaslab.next (meta_at r.2 old_head) = n /\
  (forall i, 0 <= i < SLAB_COUNT -> i <> old_head -> meta_at r.2 i = meta_at st i) /\
  used r.2 = used st + 2 /\
  (exists l, free_list st = Some (old_head :: l) /\ free_list r.2 = Some l) /\
  invariant r.2 = true.
Proof using SLAB_COUNT_BITS_range SLAB_BITS_range.
  intros Hinv Hnf Hsc old_head n r.
  apply invariant_chain_inv in Hinv as (l & Hinv).
  destruct (alloc_slab_chain_inv self st sizeclass l Hinv Hnf)
    as (l' & -> & Hh & Haddr & Hu & Hinv').
  pose proof Hinv as (Hlen & _ & Hl & _).
  pose proof Hinv' as (_ & _ & Hl' & _).
  assert (Hidx : (ModArray_index old_head < length (meta st))%nat)
    by (rewrite Hlen; apply ModArray_index_lt).
  split; [exact Haddr |]. split; [exact Hh |]. split.
  { subst r. rewrite head_after_alloc_slab. unfold chain_next, n, meta_at.
    rewrite ModArray_index_small by (apply Mod_get_range). reflexivity. }
  assert (Hrec : meta_at r.2 old_head =
                 Metaslab.set_sizeclass (to_uint8 sizeclass)
                   (Metaslab.set_full
                      (Metaslab.free_queue_init (meta_at st old_head)))).
  { subst r. unfold alloc_slab, meta_at at 1. simpl.
    rewrite list_lookup_total_insert_eq by exact Hidx. reflexivity. }
  rewrite Hrec. simpl.
  split; [apply to_uint8_small; exact Hsc |].
  split; [reflexivity |]. split; [reflexivity |]. split.
  { intros i Hi Hne. subst r. unfold alloc_slab, meta_at. simpl.
    rewrite list_lookup_total_insert_ne; [reflexivity |].
    rewrite !ModArray_index_small by (assumption || apply Mod_get_range).
    fold old_head. lia. }
  split; [exact Hu |]. split.
  { exists l'. split; assumption. }
  apply invariant_chain_inv. exists l'. exact Hinv'.
Qed.


Lemma dealloc_slab_action (self : Z) (s : Superslab) (slab : Z) :
  (dealloc_slab self s slab).1 =
  if is_almost_full s || is_empty (dealloc_slab self s slab).2
  then StatusChange else NoStatusChange.
Proof.
  unfold dealloc_slab. cbv zeta.
  match goal with
  | |- context [with_used ?u ?s1] =>
      set (s2 := with_used u s1);
      replace (is_almost_full s1) with (is_almost_full s) by reflexivity
  end.
  destruct (is_almost_full s || is_empty s2) eqn:E; simpl; rewrite E; reflexivity.
Qed.

(** C4, as the code has it.  For a reachable state and a slab that
    [alloc_slab] handed out and that was not given back, [dealloc_slab] finds
    the index of the slab, a regular slot; clears its size class; stores as
    its link the byte [old_head - index - 1] reduced modulo 256, which is
    [old_head - index - 1] modulo [SLAB_COUNT] once read modulo [SLAB_COUNT];
    sets [head] to the index; takes 2 from [used]; returns [StatusChange] if
    the superslab was almost full before or is empty after, [NoStatusChange]
    otherwise.  The slot is pushed in front of the free list. *)
Theorem dealloc_slab_spec (self : Z) (st : Superslab) (out : list Z) (slab : Z) :
  reachable self st out ->
  slab ∈ out ->
  let index := slab_to_index self slab in
  let old_head := Mod_get (head st) in
  let r := dealloc_slab self st slab in
  slab = slab_address self index /\
  1 <= index < SLAB_COUNT /\
  2 <= used st /\
  Metaslab.sizeclass (meta_at r.2 index) = 0 /\
  Metaslab.next (meta_at r.2 index) = (old_head - index - 1) mod 256 /\
  Metaslab.next (meta_at r.2 index) mod SLAB_COUNT
    = (old_head - index - 1) mod SLAB_COUNT /\
  Mod_get (head r.2) = index /\
  used r.2 = used st - 2 /\
  r.1 = (if is_almost_full st || is_empty r.2 then StatusChange else NoStatusChange) /\
  (exists l, free_list st = Some l /\ free_list r.2 = Some (index :: l)).
Proof using SLAB_COUNT_BITS_range SLAB_BITS_range.
  intros Hr Hin index old_head r.
  destruct (reachable_inv self st out Hr) as (_ & l & Hinv & Hout).
  destruct (dealloc_slab_out_inv self st slab l out Hinv Hout Hin)
    as (i & Hi & Hslab & Hnot & H2 & Hinv' & _).
  pose proof SLAB_COUNT_bounds as HC.
  assert (Ei : index = i).
  { unfold index. rewrite Hslab. apply slab_to_index_address. lia. }
  rewrite Ei. clear index Ei.
  destruct (dealloc_slab_chain_inv self st i l Hinv Hi Hnot H2) as (Hu & _).
  rewrite <- Hslab in Hu. fold r in Hu, Hinv'.
  pose proof Hinv as (Hlen & _ & Hl & _).
  pose proof Hinv' as (_ & _ & Hl' & _).
  assert (Hidx : to_uint8 (slab_to_index self slab) = i).
  { rewrite Hslab, slab_to_index_address by lia. apply to_uint8_small. lia. }
  assert (Hrec : meta_at r.2 i =
                 Metaslab.set_next (to_uint8 (old_head - i - 1))
                   (Metaslab.set_sizeclass 0 (meta_at st i))).
  { subst r. unfold dealloc_slab. rewrite Hidx.
    destruct (_ || _); simpl; unfold meta_at, set_meta_at; simpl;
      rewrite list_insert_insert_eq;
      rewrite !list_lookup_total_insert_eq
        by (rewrite ?length_insert, Hlen; apply ModArray_index_lt);
      reflexivity. }
  assert (Hhead : Mod_get (head r.2) = i).
  { subst r. unfold dealloc_slab. rewrite Hidx.
    destruct (_ || _); simpl; rewrite Mod_get_set; apply Z.mod_small; lia. }
  split; [exact Hslab |]. split; [exact Hi |]. split; [exact H2 |].
  rewrite Hrec. simpl.
  split; [reflexivity |]. split; [reflexivity |].
  split; [apply to_uint8_mod_SLAB_COUNT |].
  split; [exact Hhead |]. split; [exact Hu |]. split.
  - subst r. apply dealloc_slab_action.
  - exists l. split; assumption.
Qed.

(** The record that [dealloc_slab] leaves in the slot it frees. *)
Lemma dealloc_slab_record (self : Z) (s : Superslab) (i : Z) :
  length (meta s) = Z.to_nat SLAB_COUNT -> 1 <= i < SLAB_COUNT ->
  meta_at (dealloc_slab self s (slab_address self i)).2 i =
  Metaslab.set_next (to_uint8 (Mod_get (head s) - i - 1))
    (Metaslab.set_sizeclass 0 (meta_at s i)).
Proof using SLAB_COUNT_BITS_range SLAB_BITS_range.
  intros Hlen Hi. pose proof SLAB_COUNT_bounds as HC.
  assert (Hidx : to_uint8 (slab_to_index self (slab_address self i)) = i).
  { rewrite slab_to_index_address by lia. apply to_uint8_small. lia. }
  unfold dealloc_slab. rewrite Hidx.
  destruct (_ || _); simpl; unfold meta_at, set_meta_at; simpl;
    rewrite list_insert_insert_eq;
    rewrite !list_lookup_total_insert_eq
      by (rewrite ?length_insert, Hlen; apply ModArray_index_lt);
    reflexivity.
Qed.

(** The assertion on the index holds of the slab of a slot. *)
Lemma slab_to_index_assert_address (self i : Z) :
  0 <= i < SLAB_COUNT -> slab_to_index_assert self (slab_address self i) = true.
Proof using SLAB_COUNT_BITS_range SLAB_BITS_range.
  intros Hi. pose proof SLAB_COUNT_bounds as HC.
  pose proof (slab_to_index_address self i Hi) as E.
  unfold slab_to_index in E. unfold slab_to_index_assert.
  apply Z.eqb_eq. rewrite E.
  pose proof (Z.mod_pos_bound
                (Z.shiftr (pointer_diff self (slab_address self i)) SLAB_BITS)
                (2 ^ 8) ltac:(lia)) as Hb.
  unfold to_uint8 in E.
  assert (Hs : 0 <= Z.shiftr (pointer_diff self (slab_address self i)) SLAB_BITS).
  { apply Z.shiftr_nonneg. unfold pointer_diff, to_size_t.
    apply Z.mod_pos_bound. lia. }
  unfold slab_address, pointer_diff in *.
  replace (self + i * SLAB_SIZE - self) with (i * SLAB_SIZE) in * by lia.
  unfold to_size_t in *.
  rewrite Z.mod_small in * by (apply slab_offset_range, Hi).
  rewrite SLAB_SIZE_pow2, Z.shiftr_div_pow2 in * by lia.
  rewrite Z.div_mul in * by (pose proof SLAB_BITS_range; apply Z.pow_nonzero; lia).
  reflexivity.
Qed.

(** [dealloc_slab] of the slot that leads back to the free list [l]. *)
Lemma dealloc_slab_push (self : Z) (s : Superslab) (i : Z) (l : list Z) :
  chain_inv s l -> 1 <= i < SLAB_COUNT -> i ∉ l -> 2 <= used s ->
  Mod_get (head (dealloc_slab self s (slab_address self i)).2) = i /\
  free_list (dealloc_slab self s (slab_address self i)).2 = Some (i :: l) /\
  used (dealloc_slab self s (slab_address self i)).2 = used s - 2.
Proof using SLAB_COUNT_BITS_range SLAB_BITS_range.
  intros Hinv Hi Hnot H2.
  destruct (dealloc_slab_chain_inv self s i l Hinv Hi Hnot H2)
    as (Hu & _ & _ & Hl & _).
  split; [| split; [exact Hl | exact Hu]].
  unfold free_list in Hl.
  apply chain_from_Some_inv in Hl as [[_ E] | [_ (f & l2 & _ & E & _)]];
    [discriminate | congruence].
Qed.

(** C5, as the code has it.  In a reachable state that is not almost full,
    take the slab that [alloc_slab] returns.  Given back at once, in a build
    with assertions [dealloc_slab] aborts, for the record of the slab is
    still marked full; in a release build it brings [head] back to the slot
    it named and leaves the free list, the slots met from [head] to slot 0
    in this order, and [used] as they were.  So it does in both builds once
    the object-level code has rewritten the record of the slab and the
    record reports itself unused; whatever record [m] was written, the
    release build restores [head], the free list and [used], and the build
    with assertions returns the same result exactly when [m] is unused. *)
Theorem alloc_dealloc_round_trip (self : Z) (st : Superslab) (out : list Z)
    (sizeclass : Z) :
  reachable self st out ->
  is_almost_full st = false ->
  let a := alloc_slab self st sizeclass in
  let index := slab_to_index self a.1 in
  dealloc_slab_debug self a.2 a.1 = None /\
  (let d := dealloc_slab self a.2 a.1 in
   Mod_get (head d.2) = Mod_get (head st) /\
   (exists l, free_list st = Some l /\ free_list d.2 = Some l) /\
   used d.2 = used st) /\
  (forall m : Metaslab.t,
     let s1 := set_meta_at index m a.2 in
     let d := dealloc_slab self s1 a.1 in
     reachable self s1 (a.1 :: out) /\
     Mod_get (head d.2) = Mod_get (head st) /\
     (exists l, free_list st = Some l /\ free_list d.2 = Some l) /\
     used d.2 = used st /\
     dealloc_slab_debug self s1 a.1
       = if Metaslab.is_unused m then Some d else None).
Proof using SLAB_COUNT_BITS_range SLAB_BITS_range.
  intros Hr Hnf a index. pose proof SLAB_COUNT_bounds as HC.
  destruct (reachable_inv self st out Hr) as (_ & l & Hinv & Hout).
  destruct (alloc_slab_chain_inv self st sizeclass l Hinv Hnf)
    as (l' & -> & Hh & Haddr & Hu & Hinv').
  fold a in Haddr, Hu, Hinv'.
  set (h := Mod_get (head st)) in *.
  assert (Hnot : h ∉ l').
  { destruct Hinv as (_ & _ & Hl & _).
    apply chain_from_NoDup, NoDup_cons in Hl as [Hnot _]. exact Hnot. }
  assert (Hl0 : free_list st = Some (h :: l')) by (destruct Hinv as (_ & _ & E & _); exact E).
  assert (H2 : 2 <= used a.2) by (destruct Hinv as (_ & ? & _); lia).
  assert (Hidx : index = h).
  { unfold index. rewrite Haddr. apply slab_to_index_address. lia. }
  assert (Hlen : length (meta a.2) = Z.to_nat SLAB_COUNT)
    by (destruct Hinv' as (E & _); exact E).
  assert (Hassert : slab_to_index_assert self a.1 = true)
    by (rewrite Haddr; apply slab_to_index_assert_address; lia).
  assert (Hu8 : to_uint8 (slab_to_index self a.1) = h).
  { fold index. rewrite Hidx. apply to_uint8_small. lia. }
  assert (Hfull : Metaslab.full (meta_at a.2 h) = true).
  { subst a. unfold alloc_slab, meta_at at 1. simpl. fold h.
    rewrite list_lookup_total_insert_eq; [reflexivity |].
    destruct Hinv as (E & _). rewrite E. apply ModArray_index_lt. }
  split; [| split].
  - unfold dealloc_slab_debug. rewrite Hassert, Hu8. cbv beta iota zeta.
    rewrite Haddr, dealloc_slab_record by (assumption || lia).
    change (Metaslab.is_unused
              (Metaslab.set_next (to_uint8 (Mod_get (head a.2) - h - 1))
                 (Metaslab.set_sizeclass 0 (meta_at a.2 h))))
      with (negb (Metaslab.full (meta_at a.2 h))).
    rewrite Hfull. reflexivity.
  - intros d. subst d. rewrite Haddr.
    destruct (dealloc_slab_push self a.2 h l' Hinv' Hh Hnot H2) as (E1 & E2 & E3).
    split; [exact E1 |]. split; [exists (h :: l'); split; assumption | lia].
  - intros m s1 d.
    assert (Hin : a.1 ∈ a.1 :: out) by left.
    assert (Hr1 : reachable self s1 (a.1 :: out)).
    { subst s1 index a. apply reach_slab_use; [| exact Hin].
      apply reach_alloc_slab; assumption. }
    assert (Hinv1 : chain_inv s1 l').
    { subst s1. rewrite Hidx.
      apply set_meta_at_chain_inv; [exact Hinv' | lia | exact Hnot]. }
    assert (H21 : 2 <= used s1) by exact H2.
    assert (Hm : meta_at s1 h = m).
    { subst s1. rewrite Hidx. unfold meta_at, set_meta_at, with_meta.
      cbn [meta].
      apply list_lookup_total_insert_eq. rewrite Hlen. apply ModArray_index_lt. }
    destruct (dealloc_slab_push self s1 h l' Hinv1 Hh Hnot H21) as (E1 & E2 & E3).
    rewrite <- Haddr in E1, E2, E3. fold d in E1, E2, E3.
    split; [exact Hr1 |]. split; [exact E1 |].
    split; [exists (h :: l'); split; assumption |].
    split; [change (used s1) with (used a.2) in E3; lia |].
    unfold dealloc_slab_debug. rewrite Hassert, Hu8.
    cbv beta iota zeta. fold d.
    assert (Hrec : meta_at d.2 h =
              Metaslab.set_next (to_uint8 (Mod_get (head s1) - h - 1))
                (Metaslab.set_sizeclass 0 (meta_at s1 h))).
    { subst d. rewrite Haddr. apply dealloc_slab_record; [| lia].
      destruct Hinv1 as (E & _). exact E. }
    rewrite Hrec, Hm. reflexivity.
Qed.

(** C6. When the short slab is already in use, [used] being odd,
    [alloc_short_slab] is [alloc_slab]: the same slab is returned and the
    same state is left, whatever the size class; [used] grows by 2. *)
Theorem alloc_short_slab_fallback (self : Z) (st : Superslab) (sizeclass : Z) :
  used_ok st = true ->
  Z.odd (used st) = true ->
  alloc_short_slab self st sizeclass = alloc_slab self st sizeclass /\
  (alloc_short_slab self st sizeclass).1
    = pointer_offset self (to_size_t (Z.shiftl (Mod_get (head st)) SLAB_BITS)) /\
  used (alloc_short_slab self st sizeclass).2 = used st + 2.
Proof using SLAB_COUNT_BITS_range.
  intros Hok Ho. pose proof SLAB_COUNT_bounds as HC.
  unfold used_ok in Hok. apply andb_prop in Hok as [H0 H1].
  rewrite alloc_short_slab_odd by exact Ho.
  split; [reflexivity |]. split; [reflexivity |].
  unfold alloc_slab. simpl. apply to_uint16_small. lia.
Qed.

(** C7. The short slab stays off the free list.  With the short slab free,
    [used] being even, [alloc_short_slab] returns the header's address,
    writes the record of slot 0 only and adds 1 to [used]: [head] and the
    record of every regular slot are as before.  [dealloc_short_slab] takes 1
    from [used] and leaves [head] and every record as they were. *)
Theorem short_slab_frame (self : Z) (st : Superslab) (sizeclass : Z) :
  used_ok st = true ->
  (Z.even (used st) = true ->
   let r := alloc_short_slab self st sizeclass in
   r.1 = self /\
   used r.2 = used st + 1 /\
   head r.2 = head st /\
   (forall i, 1 <= i < SLAB_COUNT -> meta_at r.2 i = meta_at st i) /\
   (forall j : nat, j <> 0%nat -> meta r.2 !! j = meta st !! j) /\
   length (meta r.2) = length (meta st) /\
   kind r.2 = kind st /\ allocator r.2 = allocator st /\
   free_list r.2 = free_list st) /\
  (0 < used st ->
   let r := dealloc_short_slab st in
   used r.2 = used st - 1 /\
   head r.2 = head st /\
   meta r.2 = meta st /\
   kind r.2 = kind st /\ allocator r.2 = allocator st /\
   free_list r.2 = free_list st).
Proof using SLAB_COUNT_BITS_range.
  intros Hok. pose proof SLAB_COUNT_bounds as HC.
  unfold used_ok in Hok. apply andb_prop in Hok as [H0 H1].
  split.
  - intros He r. subst r. rewrite alloc_short_slab_even by exact He. simpl.
    split; [reflexivity |]. split; [apply to_uint16_small; lia |].
    split; [reflexivity |]. split; [| split].
    + intros i Hi. unfold meta_at. simpl.
      rewrite list_lookup_total_insert_ne; [reflexivity |].
      rewrite ModArray_index_small by lia. lia.
    + intros j Hj. apply list_lookup_insert_ne. congruence.
    + split; [apply length_insert |]. split; [reflexivity |].
      split; [reflexivity |].
      unfold free_list. simpl. apply chain_from_ext.
      apply chain_next_insert_same. reflexivity.
  - intros Hpos r. subst r. rewrite dealloc_short_slab_state. simpl.
    split; [apply to_uint16_small; lia |]. repeat split; reflexivity.
Qed.


(** C8, as the code has it.  The bound of the debug walk of [init] is
    [SLAB_COUNT - used - 1].  In a state that satisfies the invariant and in
    which nothing is in use, [used = 0], the walk goes from [head] through
    exactly [SLAB_COUNT - (used >> 1) - 1] links and ends on slot 0, so that
    it does not abort. *)
Theorem init_debug_walk_empty (st : Superslab) :
  invariant st = true ->
  used st = 0 ->
  init_debug_steps st = Z.to_nat (SLAB_COUNT - Z.shiftr (used st) 1 - 1) /\
  Mod_get (init_debug_walk st) = 0 /\
  init_debug_check st = init_debug_unused st.
Proof using SLAB_COUNT_BITS_range.
  intros Hinv Hu.
  pose proof (init_debug_walk_lands st Hinv Hu) as Hwalk.
  split; [apply init_debug_steps_empty, Hu |]. split; [exact Hwalk |].
  unfold init_debug_check. rewrite Hwalk. reflexivity.
Qed.

(** The table lists no class below the threshold that could hold [size]
    bytes. *)
Lemma smallest_class_from_below (n : nat) :
  forall c0 size c, c0 <= c < smallest_class_from n c0 size ->
    sizeclass_to_size c < size.
Proof.
  induction n as [| n IH]; intros c0 size c Hc; simpl in Hc; [lia |].
  destruct (Z.leb_spec size (sizeclass_to_size c0)) as [Hle | Hgt]; [lia |].
  destruct (Z.eq_dec c c0) as [-> | Hne]; [exact Hgt |].
  apply (IH (c0 + 1)). lia.
Qed.

Lemma smallest_class_from_found (n : nat) :
  forall c0 size, smallest_class_from n c0 size < c0 + Z.of_nat n ->
    size <= sizeclass_to_size (smallest_class_from n c0 size).
Proof.
  induction n as [| n IH]; intros c0 size Hc; simpl in *; [lia |].
  destruct (Z.leb_spec size (sizeclass_to_size c0)) as [Hle | Hgt]; [exact Hle |].
  apply IH. lia.
Qed.

(** C9. [is_short_sizeclass] holds of a class exactly when the class is
    strictly below the threshold class
    [size_to_sizeclass_const (SLAB_SIZE - sizeof (Superslab))].  Hence it
    holds only of classes whose largest object is strictly smaller than
    [SLAB_SIZE - sizeof (Superslab)], and it fails for the threshold class
    and for every class above it; the threshold class, when the table has
    it, is one whose objects reach that size. *)
Theorem is_short_sizeclass_spec (sizeclass : Z) :
  let h := size_to_sizeclass_const (SLAB_SIZE - sizeof_Superslab) in
  (is_short_sizeclass sizeclass = true <-> sizeclass < h) /\
  (0 <= sizeclass -> is_short_sizeclass sizeclass = true ->
     sizeclass_to_size sizeclass < SLAB_SIZE - sizeof_Superslab) /\
  is_short_sizeclass h = false /\
  (h <= sizeclass -> is_short_sizeclass sizeclass = false) /\
  (h < Z.of_nat NUM_SIZECLASSES ->
     SLAB_SIZE - sizeof_Superslab <= sizeclass_to_size h).
Proof.
  intros h. unfold is_short_sizeclass. fold h.
  split; [apply Z.ltb_lt |]. split; [| split; [| split]].
  - intros H0 Hlt. apply Z.ltb_lt in Hlt.
    apply (smallest_class_from_below NUM_SIZECLASSES 0). split; assumption.
  - apply Z.ltb_irrefl.
  - intros Hle. apply Z.ltb_ge. exact Hle.
  - intros Hlt. apply smallest_class_from_found. exact Hlt.
Qed.

(** The status, read off [used]. *)
Lemma get_status_used (s : Superslab) :
  get_status s =
  if used s <? 2 * (SLAB_COUNT - 1) then
    if used s =? 0 then Empty else Available
  else if used s =? 2 * (SLAB_COUNT - 1) + 1 then Full
  else OnlyShortSlabAvailable.
Proof.
  unfold get_status, is_almost_full, is_empty, is_full.
  rewrite shiftl_1_double.
  destruct (Z.geb_spec (used s) (2 * (SLAB_COUNT - 1)));
    destruct (Z.ltb_spec (used s) (2 * (SLAB_COUNT - 1))); try lia; simpl;
    destruct (Z.eqb_spec (used s) 0);
    destruct (Z.eqb_spec (used s) (2 * (SLAB_COUNT - 1) + 1)); reflexivity.
Qed.

(** The test of [dealloc_slab] fires exactly when the status changes. *)
Lemma dealloc_slab_test_status (s s' : Superslab) :
  2 <= used s <= 2 * (SLAB_COUNT - 1) + 1 -> used s' = used s - 2 ->
  (is_almost_full s || is_empty s' = true <-> get_status s' <> get_status s).
Proof using SLAB_COUNT_BITS_range.
  intros Hu Hu'. pose proof SLAB_COUNT_bounds as HC.
  rewrite !get_status_used. unfold is_almost_full, is_empty.
  rewrite shiftl_1_double, Hu'.
  destruct (Z.geb_spec (used s) (2 * (SLAB_COUNT - 1)));
    destruct (Z.eqb_spec (used s - 2) 0);
    destruct (Z.ltb_spec (used s - 2) (2 * (SLAB_COUNT - 1)));
    destruct (Z.ltb_spec (used s) (2 * (SLAB_COUNT - 1)));
    destruct (Z.eqb_spec (used s) 0);
    destruct (Z.eqb_spec (used s - 2) (2 * (SLAB_COUNT - 1) + 1));
    destruct (Z.eqb_spec (used s) (2 * (SLAB_COUNT - 1) + 1));
    simpl; split; intros; try congruence; try lia.
Qed.

(** The test of [dealloc_short_slab] fires exactly when the status changes. *)
Lemma dealloc_short_slab_test_status (s s' : Superslab) :
  1 <= used s <= 2 * (SLAB_COUNT - 1) + 1 -> Z.odd (used s) = true ->
  used s' = used s - 1 ->
  (is_full s || is_empty s' = true <-> get_status s' <> get_status s).
Proof using SLAB_COUNT_BITS_range.
  intros Hu Ho Hu'. pose proof SLAB_COUNT_bounds as HC.
  pose proof (odd_half _ Ho) as Hhalf.
  rewrite !get_status_used. unfold is_full, is_empty.
  rewrite shiftl_1_double, Hu'.
  destruct (Z.eqb_spec (used s) (2 * (SLAB_COUNT - 1) + 1));
    destruct (Z.eqb_spec (used s - 1) 0);
    destruct (Z.ltb_spec (used s - 1) (2 * (SLAB_COUNT - 1)));
    destruct (Z.ltb_spec (used s) (2 * (SLAB_COUNT - 1)));
    destruct (Z.eqb_spec (used s) 0);
    destruct (Z.eqb_spec (used s - 1) (2 * (SLAB_COUNT - 1) + 1));
    simpl; split; intros; try congruence; try lia.
Qed.

Lemma dealloc_short_slab_action (s : Superslab) :
  (dealloc_short_slab s).1 =
  if is_full s || is_empty (dealloc_short_slab s).2
  then StatusChange else NoStatusChange.
Proof.
  unfold dealloc_short_slab. cbv zeta.
  destruct (is_full s || is_empty (with_used (to_uint16 (used s - 1)) s)) eqn:E;
    simpl; rewrite E; reflexivity.
Qed.

(** C10. In a reachable state, a deallocation returns [StatusChange] exactly
    when [get_status] after the call differs from [get_status] before it,
    and [NoStatusChange] otherwise: so does [dealloc_slab] on a slab handed
    out and not given back, and so does [dealloc_short_slab] when the short
    slab is in use. *)
Theorem dealloc_status_change (self : Z) (st : Superslab) (out : list Z) :
  reachable self st out ->
  (forall slab, slab ∈ out ->
     let r := dealloc_slab self st slab in
     (r.1 = StatusChange <-> get_status r.2 <> get_status st) /\
     (r.1 = NoStatusChange <-> get_status r.2 = get_status st)) /\
  (Z.odd (used st) = true ->
     let r := dealloc_short_slab st in
     (r.1 = StatusChange <-> get_status r.2 <> get_status st) /\
     (r.1 = NoStatusChange <-> get_status r.2 = get_status st)).
Proof using SLAB_COUNT_BITS_range SLAB_BITS_range.
  intros Hr. destruct (reachable_inv self st out Hr) as (_ & l & Hinv & Hout).
  pose proof Hinv as (_ & Hused & _).
  split.
  - intros slab Hin r.
    destruct (dealloc_slab_out_inv self st slab l out Hinv Hout Hin)
      as (i & Hi & -> & Hnot & H2 & _).
    destruct (dealloc_slab_chain_inv self st i l Hinv Hi Hnot H2) as (Hu & _).
    fold r in Hu.
    pose proof (dealloc_slab_test_status st r.2 ltac:(lia) Hu) as Htest.
    subst r. rewrite dealloc_slab_action.
    destruct (is_almost_full st || is_empty _) eqn:E.
    + split; split; intros H; try discriminate; try reflexivity.
      * apply Htest. reflexivity.
      * exfalso. apply Htest in H; [exact H | reflexivity].
    + split; split; intros H; try discriminate; try reflexivity.
      * apply Htest in H. discriminate.
      * destruct (decide (get_status (dealloc_slab self st (slab_address self i)).2
                          = get_status st)) as [Heq | Hne]; [exact Heq |].
        apply Htest in Hne. discriminate.
  - intros Ho r.
    destruct (dealloc_short_slab_chain_inv st l Hinv Ho) as (Hu & _).
    fold r in Hu.
    assert (H1 : 1 <= used st) by (pose proof (odd_half _ Ho); lia).
    pose proof (dealloc_short_slab_test_status st r.2 ltac:(lia) Ho Hu) as Htest.
    subst r. rewrite dealloc_short_slab_action.
    destruct (is_full st || is_empty _) eqn:E.
    + split; split; intros H; try discriminate; try reflexivity.
      * apply Htest. reflexivity.
      * exfalso. apply Htest in H; [exact H | reflexivity].
    + split; split; intros H; try discriminate; try reflexivity.
      * apply Htest in H. discriminate.
      * destruct (decide (get_status (dealloc_short_slab st).2 = get_status st))
          as [Heq | Hne]; [exact Heq |].
        apply Htest in Hne. discriminate.
Qed.


(** ** Further properties: the counter and the free list *)

Lemma slab_address_not_self (self i : Z) :
  1 <= i -> slab_address self i <> self.
Proof using SLAB_BITS_range.
  clear SLAB_COUNT_BITS_range.
  intros Hi. unfold slab_address. pose proof SLAB_SIZE_pos. nia.
Qed.

Lemma odd_add_2 (u : Z) : Z.odd (u + 2) = Z.odd u.
Proof. rewrite Z.odd_add. simpl. apply xorb_false_r. Qed.

Lemma odd_sub_2 (u : Z) : Z.odd (u - 2) = Z.odd u.
Proof. rewrite <- (odd_add_2 (u - 2)). f_equal. lia. Qed.

Lemma odd_add_1 (u : Z) : Z.odd (u + 1) = negb (Z.odd u).
Proof. rewrite Z.odd_add. simpl. apply xorb_true_r. Qed.

Lemma odd_sub_1 (u : Z) : Z.odd (u - 1) = negb (Z.odd u).
Proof.
  rewrite <- (negb_involutive (Z.odd (u - 1))), <- odd_add_1.
  do 2 f_equal. lia.
Qed.

(** Room for a regular slab, told from the slabs handed out. *)
Lemma out_inv_room (self : Z) (s : Superslab) (l out : list Z) :
  chain_inv s l -> out_inv self s l out ->
  Z.of_nat (length out) < SLAB_COUNT - 1 -> is_almost_full s = false.
Proof.
  intros (_ & Hused & _) (_ & Hn & _) Hroom.
  apply is_almost_full_false. rewrite shiftr_1_half in Hn.
  pose proof (Z.div_mod (used s) 2 ltac:(lia)) as Hd.
  pose proof (Z.mod_pos_bound (used s) 2 ltac:(lia)). lia.
Qed.

(** The calls that the history allows are calls within the preconditions,
    and the low bit of [used] tells whether the short slab is held. *)
Lemma tracked_reachable (self : Z) (s : Superslab) (out : list Z) (short : bool) :
  tracked self s out short ->
  reachable self s out /\ Z.odd (used s) = short.
Proof using SLAB_COUNT_BITS_range SLAB_BITS_range.
  induction 1 as
    [ alloc s Hk Hz
    | alloc s Hk Hlen
    | alloc s Ht IH
    | s out short sc Ht IH Hroom
    | s out sc Ht IH
    | s out sc Ht IH Hroom
    | s out short slab Ht IH Hin
    | s out Ht IH
    | s out short slab m Ht IH Hin
    | s out m Ht IH ].
  - split; [apply reach_fresh; assumption |].
    rewrite init_fresh by assumption. destruct Hz as (_ & Hu & _).
    simpl. rewrite Hu. reflexivity.
  - split; [apply reach_recycled; assumption |].
    rewrite init_reset; [reflexivity | congruence | left; congruence | exact Hlen].
  - destruct IH as (Hr & Ho).
    destruct (reachable_inv self s [] Hr) as (Hk & l & Hinv & Hout).
    assert (Hu : used s = 0).
    { destruct Hout as (_ & Hn & _). rewrite shiftr_1_half in Hn.
      pose proof (Zmod_odd (used s)) as Hm. rewrite Ho in Hm.
      pose proof (Z.div_mod (used s) 2 ltac:(lia)). simpl in Hn. lia. }
    split; [apply reach_again; [exact Hr | apply Z.eqb_eq; exact Hu] |].
    destruct (Z.lt_ge_cases sizeof_Superslab OS_PAGE_SIZE) as [Hs | Hb].
    + rewrite init_keep by assumption. simpl. rewrite Hu. reflexivity.
    + destruct Hinv as (Hlen & _).
      rewrite init_reset; [reflexivity | congruence | right; exact Hb | exact Hlen].
  - destruct IH as (Hr & Ho).
    destruct (reachable_inv self s out Hr) as (_ & l & Hinv & Hout).
    pose proof (out_inv_room self s l out Hinv Hout Hroom) as Hnf.
    split; [apply reach_alloc_slab; assumption |].
    destruct (alloc_slab_chain_inv self s sc l Hinv Hnf) as (_ & _ & _ & _ & -> & _).
    rewrite odd_add_2. exact Ho.
  - destruct IH as (Hr & Ho).
    destruct (reachable_inv self s out Hr) as (_ & l & Hinv & Hout).
    assert (He : Z.even (used s) = true) by (rewrite <- Z.negb_odd, Ho; reflexivity).
    split; [apply reach_alloc_short_slab; assumption |].
    destruct (alloc_short_slab_chain_inv self s sc l Hinv He) as (-> & _).
    rewrite odd_add_1, Ho. reflexivity.
  - destruct IH as (Hr & Ho).
    destruct (reachable_inv self s out Hr) as (_ & l & Hinv & Hout).
    pose proof (out_inv_room self s l out Hinv Hout Hroom) as Hnf.
    split; [apply reach_alloc_short_fallback; assumption |].
    rewrite alloc_short_slab_odd by exact Ho.
    destruct (alloc_slab_chain_inv self s sc l Hinv Hnf) as (_ & _ & _ & _ & -> & _).
    rewrite odd_add_2. exact Ho.
  - destruct IH as (Hr & Ho).
    destruct (reachable_inv self s out Hr) as (_ & l & Hinv & Hout).
    split; [apply reach_dealloc_slab; assumption |].
    destruct (dealloc_slab_out_inv self s slab l out Hinv Hout Hin)
      as (i & Hi & -> & Hnot & H2 & _).
    destruct (dealloc_slab_chain_inv self s i l Hinv Hi Hnot H2) as (-> & _).
    rewrite odd_sub_2. exact Ho.
  - destruct IH as (Hr & Ho).
    destruct (reachable_inv self s out Hr) as (_ & l & Hinv & Hout).
    split; [apply reach_dealloc_short_slab; assumption |].
    destruct (dealloc_short_slab_chain_inv s l Hinv Ho) as (-> & _).
    rewrite odd_sub_1, Ho. reflexivity.
  - destruct IH as (Hr & Ho).
    split; [apply reach_slab_use; assumption | exact Ho].
  - destruct IH as (Hr & Ho).
    split; [apply reach_short_slab_use; assumption | exact Ho].
Qed.

(** X1. The counter follows the history of the calls.  After any sequence
    of calls that the owner may make, knowing only what it holds ([out] for
    the regular slabs, [short] for the short slab), the state is reachable
    and satisfies the invariant, [kind] is [Super], and [used] is twice the
    number of regular slabs held plus one when the short slab is held; the
    low bit of [used], which [alloc_short_slab] tests, is [short].  At most
    [SLAB_COUNT - 1] regular slabs are held, so the 16-bit counter never
    wraps; they are pairwise distinct and none is the header.  Hence
    [alloc_short_slab] hands out the header exactly when the short slab is
    not held: held, and with room left, it returns a regular slab that is
    not held either. *)
Theorem reachable_used_count (self : Z) (st : Superslab) (out : list Z)
    (short : bool) :
  tracked self st out short ->
  reachable self st out /\
  invariant st = true /\
  kind st = Super /\
  used st = 2 * Z.of_nat (length out) + (if short then 1 else 0) /\
  Z.odd (used st) = short /\
  Z.of_nat (length out) <= SLAB_COUNT - 1 /\
  0 <= used st < 2 * SLAB_COUNT /\
  NoDup out /\
  (self ∉ out) /\
  (forall sizeclass,
     (short = false -> (alloc_short_slab self st sizeclass).1 = self) /\
     (short = true -> Z.of_nat (length out) < SLAB_COUNT - 1 ->
        (alloc_short_slab self st sizeclass).1 <> self /\
        (alloc_short_slab self st sizeclass).1 ∉ out)).
Proof using SLAB_COUNT_BITS_range SLAB_BITS_range.
  intros Ht. destruct (tracked_reachable self st out short Ht) as (Hr & Ho).
  destruct (reachable_inv self st out Hr) as (Hk & l & Hinv & Hout).
  pose proof Hinv as (Hlen & Hused & Hl & Hcount).
  pose proof Hout as (Hnd & Hn & Hall).
  rewrite shiftr_1_half in Hcount, Hn.
  assert (Hself : self ∉ out).
  { intros Hin. destruct (Hall _ Hin) as (i & Hi & E & _).
    symmetry in E. revert E. apply slab_address_not_self. lia. }
  split; [exact Hr |].
  split; [apply invariant_chain_inv; exists l; exact Hinv |].
  split; [exact Hk |]. split.
  { rewrite Hn. pose proof (Zmod_odd (used st)) as Hm. rewrite Ho in Hm.
    pose proof (Z.div_mod (used st) 2 ltac:(lia)) as Hd.
    destruct short; lia. }
  split; [exact Ho |]. split; [lia |]. split; [lia |].
  split; [exact Hnd |]. split; [exact Hself |].
  intros sizeclass. split.
  - intros ->. rewrite alloc_short_slab_even
      by (rewrite <- Z.negb_odd, Ho; reflexivity).
    reflexivity.
  - intros -> Hroom. rewrite alloc_short_slab_odd by exact Ho.
    pose proof (out_inv_room self st l out Hinv Hout Hroom) as Hnf.
    destruct (alloc_slab_out_inv self st sizeclass l out Hinv Hout Hnf)
      as (l' & _ & _ & (Hnd' & _ & Hall')).
    apply NoDup_cons in Hnd' as [Hnot _].
    destruct (Hall' (alloc_slab self st sizeclass).1 ltac:(left))
      as (i & Hi & E & _).
    split; [rewrite E; apply slab_address_not_self; lia | exact Hnot].
Qed.

(** The free list and the slabs handed out share the regular slots between
    them. *)
Lemma free_list_complete (self : Z) (s : Superslab) (l out : list Z) :
  chain_inv s l -> out_inv self s l out ->
  forall i, 1 <= i < SLAB_COUNT -> i ∈ l \/ slab_address self i ∈ out.
Proof using SLAB_COUNT_BITS_range SLAB_BITS_range.
  intros (Hlen & Hused & Hl & Hcount) (Hnd & Hn & Hall) i Hi.
  pose proof SLAB_COUNT_bounds as HC.
  set (idx := slab_to_index self <$> out).
  assert (Hidx : forall j, j ∈ idx ->
            1 <= j < SLAB_COUNT /\ (j ∉ l) /\ slab_address self j ∈ out).
  { intros j Hj. apply list_elem_of_fmap in Hj as (p & -> & Hp).
    destruct (Hall _ Hp) as (k & Hk & -> & Hnot).
    rewrite slab_to_index_address by lia. repeat split; try lia; assumption. }
  assert (Hndi : NoDup idx).
  { apply NoDup_fmap_2_strong; [| exact Hnd].
    intros p q Hp Hq E.
    destruct (Hall _ Hp) as (k & Hk & -> & _).
    destruct (Hall _ Hq) as (k' & Hk' & -> & _).
    rewrite !slab_to_index_address in E by lia. congruence. }
  assert (Hndall : NoDup (l ++ idx)).
  { apply NoDup_app. split; [exact (chain_from_NoDup _ _ _ _ Hl) |].
    split; [| exact Hndi].
    intros x Hx Hxi. destruct (Hidx _ Hxi) as (_ & Hnot & _). contradiction. }
  assert (Hsub : l ++ idx ⊆+ seqZ 1 (SLAB_COUNT - 1)).
  { apply NoDup_submseteq; [exact Hndall |].
    intros x Hx. apply elem_of_seqZ.
    apply elem_of_app in Hx as [Hx | Hx].
    - pose proof (chain_from_regular _ _ _ _ Hl (Mod_get_head_range s) x Hx). lia.
    - destruct (Hidx _ Hx) as (Hr & _). lia. }
  assert (Hperm : l ++ idx ≡ₚ seqZ 1 (SLAB_COUNT - 1)).
  { apply submseteq_length_Permutation; [exact Hsub |].
    rewrite length_seqZ, length_app. unfold idx. rewrite length_fmap. lia. }
  assert (Hi' : i ∈ l ++ idx).
  { rewrite Hperm. apply elem_of_seqZ. lia. }
  apply elem_of_app in Hi' as [Hi' | Hi']; [left; exact Hi' |].
  right. destruct (Hidx _ Hi') as (_ & _ & Hin). exact Hin.
Qed.

(** X2. In every reachable state the free list ends on slot 0, meets no slot
    twice, and holds exactly the regular slots whose slab is not handed out;
    as many links as there are such slots lead from [head] to slot 0.  When
    nothing is handed out the free list is a permutation of all the regular
    slots. *)
Theorem free_list_partition (self : Z) (st : Superslab) (out : list Z) :
  reachable self st out ->
  exists l, free_list st = Some l /\
    NoDup l /\
    (forall i, 1 <= i < SLAB_COUNT -> (i ∈ l <-> slab_address self i ∉ out)) /\
    (forall i, i ∈ l -> 1 <= i < SLAB_COUNT) /\
    Z.of_nat (length l) = SLAB_COUNT - 1 - Z.of_nat (length out) /\
    walk (meta st) (length l) (Mod_get (head st)) = 0 /\
    (out = [] -> l ≡ₚ seqZ 1 (SLAB_COUNT - 1)).
Proof using SLAB_COUNT_BITS_range SLAB_BITS_range.
  intros Hr. destruct (reachable_inv self st out Hr) as (_ & l & Hinv & Hout).
  pose proof Hinv as (Hlen & Hused & Hl & Hcount).
  pose proof Hout as (Hnd & Hn & Hall).
  pose proof (chain_from_NoDup _ _ _ _ Hl) as Hndl.
  pose proof (chain_from_regular _ _ _ _ Hl (Mod_get_head_range st)) as Hreg.
  exists l. split; [exact Hl |]. split; [exact Hndl |]. split; [| split; [| split; [| split]]].
  - intros i Hi. split.
    + intros Hil Hin. destruct (Hall _ Hin) as (j & Hj & E & Hnot).
      apply slab_address_inj in E as <-. contradiction.
    + intros Hnot.
      destruct (free_list_complete self st l out Hinv Hout i Hi) as [H | H];
        [exact H | contradiction].
  - exact Hreg.
  - lia.
  - exact (walk_chain _ _ _ _ Hl).
  - intros ->. apply NoDup_Permutation; [exact Hndl | apply NoDup_seqZ |].
    intros x. rewrite elem_of_seqZ. split.
    + intros Hx. specialize (Hreg x Hx). lia.
    + intros Hx.
      destruct (free_list_complete self st l [] Hinv Hout x ltac:(lia)) as [H | H];
        [exact H | apply elem_of_nil in H; contradiction].
Qed.

(** X3. [alloc_slab] never hands out a slab twice: in a reachable state
    that is not almost full the slab it returns is not among the slabs
    already handed out, is not the header (the short slab), and is the
    start of a regular slot inside the superslab. *)
Theorem alloc_slab_fresh_slab (self : Z) (st : Superslab) (out : list Z)
    (sizeclass : Z) :
  reachable self st out ->
  is_almost_full st = false ->
  let r := alloc_slab self st sizeclass in
  (r.1 ∉ out) /\
  r.1 <> self /\
  (exists i, 1 <= i < SLAB_COUNT /\ r.1 = slab_address self i) /\
  self + SLAB_SIZE <= r.1 /\ r.1 + SLAB_SIZE <= self + SUPERSLAB_SIZE.
Proof using SLAB_COUNT_BITS_range SLAB_BITS_range.
  intros Hr Hnf r.
  destruct (reachable_inv self st out Hr) as (_ & l & Hinv & Hout).
  destruct (alloc_slab_out_inv self st sizeclass l out Hinv Hout Hnf)
    as (l' & -> & _ & (Hnd & _ & Hall)).
  fold r in Hnd, Hall.
  apply NoDup_cons in Hnd as [Hnot _].
  destruct (Hall r.1 ltac:(left)) as (i & Hi & E & _).
  pose proof SLAB_SIZE_pos as HS.
  split; [exact Hnot |]. split.
  { rewrite E. apply slab_address_not_self. lia. }
  split; [exists i; split; assumption |].
  rewrite E. unfold slab_address, SUPERSLAB_SIZE. nia.
Qed.


(** ** Further properties: round trips and edges *)

(** X4. The free list is a stack: in a reachable state, [dealloc_slab] of a
    slab handed out followed at once by [alloc_slab] returns that very slab,
    and [head], the free list and [used] are as before the two calls. *)
Theorem dealloc_alloc_round_trip (self : Z) (st : Superslab) (out : list Z)
    (slab sizeclass : Z) :
  reachable self st out ->
  slab ∈ out ->
  let d := dealloc_slab self st slab in
  let a := alloc_slab self d.2 sizeclass in
  a.1 = slab /\
  Mod_get (head a.2) = Mod_get (head st) /\
  free_list a.2 = free_list st /\
  used a.2 = used st.
Proof using SLAB_COUNT_BITS_range SLAB_BITS_range.
  intros Hr Hin d a.
  destruct (reachable_inv self st out Hr) as (_ & l & Hinv & Hout).
  destruct (dealloc_slab_out_inv self st slab l out Hinv Hout Hin)
    as (i & Hi & Hslab & Hnot & H2 & Hinv' & _).
  destruct (dealloc_slab_chain_inv self st i l Hinv Hi Hnot H2) as (Hu & _).
  rewrite <- Hslab in Hu. fold d in Hu, Hinv'.
  pose proof Hinv as (_ & Hused & Hl & _).
  assert (Hnf : is_almost_full d.2 = false)
    by (apply is_almost_full_false; lia).
  destruct (alloc_slab_chain_inv self d.2 sizeclass (i :: l) Hinv' Hnf)
    as (l' & E & _ & Haddr & Hu' & Hinv'').
  fold a in Haddr, Hu', Hinv''.
  injection E as Ei <-.
  destruct Hinv'' as (_ & _ & Hl'' & _).
  split; [rewrite Haddr, <- Ei, Hslab; reflexivity |].
  split; [| split; [congruence | lia]].
  unfold free_list in Hl, Hl''.
  apply chain_from_Some_inv in Hl as [[E1 ->] | [_ (f1 & l1 & _ & -> & _)]];
    apply chain_from_Some_inv in Hl'' as [[E2 E3] | [_ (f2 & l2 & _ & E3 & _)]];
    congruence.
Qed.

(** X5. [alloc_slab] does not look for room.  In a state that satisfies the
    invariant and is almost full the free list is empty and [head] reads 0:
    the call returns the address of the header itself, writes the record of
    slot 0, the short slab's, and leaves a [used] outside its encoding. *)
Theorem alloc_slab_almost_full (self : Z) (st : Superslab) (sizeclass : Z) :
  invariant st = true ->
  is_almost_full st = true ->
  let r := alloc_slab self st sizeclass in
  free_list st = Some [] /\
  Mod_get (head st) = 0 /\
  r.1 = self /\
  Metaslab.sizeclass (meta_at r.2 0) = to_uint8 sizeclass /\
  Metaslab.full (meta_at r.2 0) = true /\
  used r.2 = used st + 2 /\
  used_ok r.2 = false /\
  invariant r.2 = false.
Proof using SLAB_COUNT_BITS_range SLAB_BITS_range.
  intros Hinv Hfull r. pose proof SLAB_COUNT_bounds as HC.
  apply invariant_chain_inv in Hinv as (l & Hlen & Hused & Hl & Hcount).
  assert (Hge : 2 * (SLAB_COUNT - 1) <= used st).
  { destruct (is_almost_full st) eqn:E; [| discriminate].
    destruct (Z.lt_ge_cases (used st) (2 * (SLAB_COUNT - 1))) as [Hlt | Hge];
      [| exact Hge].
    apply is_almost_full_false in Hlt. congruence. }
  rewrite shiftr_1_half in Hcount.
  assert (Hhalf : SLAB_COUNT - 1 <= used st / 2)
    by (apply Z.div_le_lower_bound; lia).
  assert (El : l = []) by (destruct l; [reflexivity | simpl in Hcount; lia]).
  subst l.
  assert (Hh : Mod_get (head st) = 0).
  { unfold free_list in Hl.
    apply chain_from_Some_inv in Hl as [[E _] | [_ (? & ? & _ & E & _)]];
      [exact E | discriminate]. }
  assert (Hu : used r.2 = used st + 2).
  { subst r. unfold alloc_slab. simpl. apply to_uint16_small. lia. }
  assert (Hbad : used_ok r.2 = false).
  { unfold used_ok. rewrite Hu. apply andb_false_iff. right.
    apply Z.leb_gt. lia. }
  split; [exact Hl |]. split; [exact Hh |]. split.
  { subst r. unfold alloc_slab, pointer_offset. simpl.
    rewrite Hh, Z.shiftl_0_l. unfold to_size_t. rewrite Z.mod_0_l by lia. lia. }
  assert (Hrec : meta_at r.2 0 =
                 Metaslab.set_sizeclass (to_uint8 sizeclass)
                   (Metaslab.set_full (Metaslab.free_queue_init (meta_at st 0)))).
  { subst r. unfold alloc_slab, meta_at at 1. simpl. rewrite Hh.
    rewrite list_lookup_total_insert_eq; [reflexivity |].
    rewrite Hlen. apply ModArray_index_lt. }
  rewrite Hrec. simpl.
  split; [reflexivity |]. split; [reflexivity |]. split; [exact Hu |].
  split; [exact Hbad |].
  apply andb_false_iff. left. apply andb_false_iff. right. exact Hbad.
Qed.

(** X6. No call guards against an underflow of [used].  On an empty
    superslab [dealloc_slab] leaves 65534 in the 16-bit counter and
    [dealloc_short_slab] leaves 65535; both return [NoStatusChange], and the
    superslab then reads as almost full, with only the short slab
    available. *)
Theorem dealloc_empty_wraps (self : Z) (st : Superslab) (slab : Z) :
  used st = 0 ->
  let d := dealloc_slab self st slab in
  let e := dealloc_short_slab st in
  d.1 = NoStatusChange /\ used d.2 = 65534 /\
  get_status d.2 = OnlyShortSlabAvailable /\
  e.1 = NoStatusChange /\ used e.2 = 65535 /\
  get_status e.2 = OnlyShortSlabAvailable.
Proof using SLAB_COUNT_BITS_range.
  intros Hu d e. pose proof SLAB_COUNT_bounds as HC.
  assert (Hd : used d.2 = 65534).
  { subst d. unfold dealloc_slab. destruct (_ || _); simpl; rewrite Hu; reflexivity. }
  assert (He : used e.2 = 65535).
  { subst e. rewrite dealloc_short_slab_state. simpl. rewrite Hu. reflexivity. }
  assert (Hnf : is_almost_full st = false) by (apply is_almost_full_false; lia).
  assert (Hnfull : is_full st = false).
  { unfold is_full. rewrite shiftl_1_double. apply Z.eqb_neq. lia. }
  assert (Hstat : forall s', 65534 <= used s' <= 65535 ->
            get_status s' = OnlyShortSlabAvailable).
  { intros s' Hs'. rewrite get_status_used.
    destruct (Z.ltb_spec (used s') (2 * (SLAB_COUNT - 1))); [lia |].
    destruct (Z.eqb_spec (used s') (2 * (SLAB_COUNT - 1) + 1)); [lia | reflexivity]. }
  split.
  { change d.1 with (dealloc_slab self st slab).1.
    rewrite dealloc_slab_action, Hnf. unfold is_empty.
    change (dealloc_slab self st slab) with d. rewrite Hd. reflexivity. }
  split; [exact Hd |]. split; [apply Hstat; lia |]. split.
  { change e.1 with (dealloc_short_slab st).1.
    rewrite dealloc_short_slab_action, Hnfull. unfold is_empty.
    change (dealloc_short_slab st) with e. rewrite He. reflexivity. }
  split; [exact He |]. apply Hstat. lia.
Qed.

(** The record of slot 0 is no link of a chain. *)
Lemma chain_from_write_0 (m : list Metaslab.t) (x : Metaslab.t) (fuel : nat) :
  forall c, 0 <= c -> chain_from (<[0%nat := x]> m) fuel c = chain_from m fuel c.
Proof using SLAB_COUNT_BITS_range.
  induction fuel as [| fuel IH]; intros c Hc; [reflexivity |].
  destruct (Z.eq_dec c 0) as [-> | Hne]; [rewrite !chain_from_zero; reflexivity |].
  rewrite !chain_from_step by exact Hne.
  change 0%nat with (Z.to_nat 0).
  rewrite chain_next_insert_ne by lia.
  rewrite IH by apply chain_next_range. reflexivity.
Qed.

(** X7. With the short slab free and [used] within its encoding, take the
    short slab with [alloc_short_slab].  Given back at once, in a build with
    assertions [dealloc_short_slab] aborts, for record 0 is still marked
    full; in a release build it brings [used], [head], the free list and the
    status back.  Once the object-level code has rewritten record 0, whatever
    record [m] it wrote, the release build brings them back and returns
    [StatusChange] exactly when the superslab was empty or had only the
    short slab available, that is, when the allocation changed the status;
    the build with assertions returns the same result exactly when [m] is
    unused. *)
Theorem short_slab_round_trip (self : Z) (st : Superslab) (sizeclass : Z) :
  meta_ok st = true ->
  used_ok st = true ->
  Z.even (used st) = true ->
  let a := alloc_short_slab self st sizeclass in
  a.1 = self /\
  dealloc_short_slab_debug a.2 = None /\
  (let d := dealloc_short_slab a.2 in
   used d.2 = used st /\ head d.2 = head st /\
   free_list d.2 = free_list st /\ get_status d.2 = get_status st) /\
  (forall m : Metaslab.t,
     let s1 := set_meta_at 0 m a.2 in
     let d := dealloc_short_slab s1 in
     used d.2 = used st /\ head d.2 = head st /\
     free_list d.2 = free_list st /\ get_status d.2 = get_status st /\
     (d.1 = StatusChange <->
        get_status st = Empty \/ get_status st = OnlyShortSlabAvailable) /\
     (d.1 = StatusChange <-> get_status a.2 <> get_status st) /\
     dealloc_short_slab_debug s1
       = if Metaslab.is_unused m then Some d else None).
Proof using SLAB_COUNT_BITS_range.
  intros Hlen Hok He a. pose proof SLAB_COUNT_bounds as HC.
  apply bool_decide_eq_true in Hlen.
  unfold used_ok in Hok. apply andb_prop in Hok as [H0 H1].
  pose proof (even_half _ He) as Hhalf.
  pose proof (Mod_get_head_range st) as Hh.
  assert (Ea : a = (self,
            with_used (used st + 1)
              (with_meta
                 (<[0%nat := Metaslab.set_sizeclass (to_uint8 sizeclass)
                               (Metaslab.set_full
                                  (Metaslab.free_queue_init (meta st !!! 0%nat)))]>
                    (meta st)) st))).
  { subst a. rewrite alloc_short_slab_even by exact He.
    rewrite to_uint16_small by lia. reflexivity. }
  assert (Hua : used a.2 = used st + 1) by (rewrite Ea; reflexivity).
  assert (Hcore : forall s1, used s1 = used st + 1 -> head s1 = head st ->
            free_list s1 = free_list st ->
            let d := dealloc_short_slab s1 in
            used d.2 = used st /\ head d.2 = head st /\
            free_list d.2 = free_list st /\ get_status d.2 = get_status st /\
            (d.1 = StatusChange <->
               get_status st = Empty \/ get_status st = OnlyShortSlabAvailable) /\
            (d.1 = StatusChange <-> get_status a.2 <> get_status st)).
  { intros s1 Hu1 Hh1 Hl1 d.
    assert (Hud : used d.2 = used st).
    { subst d. rewrite dealloc_short_slab_state. simpl. rewrite Hu1.
      rewrite to_uint16_small by lia. lia. }
    assert (Hact : d.1 = if is_full s1 || is_empty d.2
                         then StatusChange else NoStatusChange)
      by (subst d; apply dealloc_short_slab_action).
    split; [exact Hud |]. split.
    { subst d. rewrite dealloc_short_slab_state. exact Hh1. }
    split.
    { subst d. rewrite dealloc_short_slab_state. exact Hl1. }
    split.
    { rewrite !get_status_used, Hud. reflexivity. }
    rewrite Hact. unfold is_full, is_empty. rewrite shiftl_1_double, Hu1, Hud.
    rewrite !get_status_used, Hua.
    destruct (Z.eqb_spec (used st + 1) (2 * (SLAB_COUNT - 1) + 1));
      destruct (Z.eqb_spec (used st) 0);
      destruct (Z.eqb_spec (used st + 1) 0);
      destruct (Z.ltb_spec (used st) (2 * (SLAB_COUNT - 1)));
      destruct (Z.ltb_spec (used st + 1) (2 * (SLAB_COUNT - 1)));
      destruct (Z.eqb_spec (used st) (2 * (SLAB_COUNT - 1) + 1));
      simpl; try lia;
      (split; split; intros Hx; try discriminate; try reflexivity;
       try (destruct Hx; discriminate); try congruence; auto). }
  assert (Hla : free_list a.2 = free_list st).
  { rewrite Ea. unfold free_list. simpl. apply chain_from_write_0, Hh. }
  assert (Hlen0 : (0 < length (meta st))%nat) by lia.
  split; [rewrite Ea; reflexivity |]. split; [| split].
  - unfold dealloc_short_slab_debug. rewrite dealloc_short_slab_state.
    unfold meta_at. rewrite ModArray_index_0, Ea. simpl.
    rewrite list_lookup_total_insert_eq by exact Hlen0. reflexivity.
  - destruct (Hcore a.2 Hua ltac:(rewrite Ea; reflexivity) Hla)
      as (E1 & E2 & E3 & E4 & _).
    repeat split; assumption.
  - intros m s1 d.
    assert (Hl1 : free_list s1 = free_list st).
    { rewrite <- Hla. subst s1. unfold free_list, set_meta_at. simpl.
      rewrite ModArray_index_0. apply chain_from_write_0.
      rewrite Ea. simpl. apply Hh. }
    destruct (Hcore s1 Hua ltac:(subst s1; rewrite Ea; reflexivity) Hl1)
      as (E1 & E2 & E3 & E4 & E5 & E6).
    fold d in E1, E2, E3, E4, E5, E6.
    repeat (split; [assumption |]).
    unfold dealloc_short_slab_debug. fold d.
    assert (Hrec : meta_at d.2 0 = m).
    { subst d. rewrite dealloc_short_slab_state. subst s1.
      unfold meta_at, set_meta_at. rewrite ModArray_index_0, Ea. simpl.
      apply list_lookup_total_insert_eq. rewrite length_insert. exact Hlen0. }
    rewrite Hrec. reflexivity.
Qed.

(** ** Further properties: from an address to the header and the record *)

Lemma SUPERSLAB_SIZE_pow2 : SUPERSLAB_SIZE = 2 ^ (SLAB_COUNT_BITS + SLAB_BITS).
Proof using SLAB_COUNT_BITS_range SLAB_BITS_range.
  unfold SUPERSLAB_SIZE. rewrite SLAB_COUNT_pow2, SLAB_SIZE_pow2.
  rewrite Z.pow_add_r by lia. reflexivity.
Qed.

Lemma SUPERSLAB_SIZE_pos : 0 < SUPERSLAB_SIZE.
Proof using SLAB_COUNT_BITS_range SLAB_BITS_range.
  rewrite SUPERSLAB_SIZE_pow2. apply Z.pow_pos_nonneg; lia.
Qed.

(** Clearing the low bits is rounding down to a multiple. *)
Lemma get_div (p : Z) : get p = p / SUPERSLAB_SIZE * SUPERSLAB_SIZE.
Proof using SLAB_COUNT_BITS_range SLAB_BITS_range.
  unfold get, pointer_align_down. rewrite SUPERSLAB_SIZE_pow2.
  replace (2 ^ (SLAB_COUNT_BITS + SLAB_BITS) - 1)
    with (Z.ones (SLAB_COUNT_BITS + SLAB_BITS)) by (rewrite Z.ones_equiv; lia).
  rewrite <- Z.ldiff_land, Z.ldiff_ones_r by lia.
  rewrite Z.shiftr_div_pow2, Z.shiftl_mul_pow2 by lia. reflexivity.
Qed.

Lemma get_inside (self off : Z) :
  self mod SUPERSLAB_SIZE = 0 -> 0 <= off < SUPERSLAB_SIZE ->
  get (self + off) = self.
Proof using SLAB_COUNT_BITS_range SLAB_BITS_range.
  intros Hal Hoff. pose proof SUPERSLAB_SIZE_pos as HS. rewrite get_div.
  pose proof (Z.div_mod self SUPERSLAB_SIZE ltac:(lia)) as Hd.
  rewrite Hal in Hd.
  replace (self + off) with (off + self / SUPERSLAB_SIZE * SUPERSLAB_SIZE) by lia.
  rewrite Z.div_add, Z.div_small by lia. lia.
Qed.

(** The index of an address [off] bytes into slot [j]. *)
Lemma shiftr_pointer_diff (self j off : Z) :
  0 <= j -> 0 <= off < SLAB_SIZE -> j * SLAB_SIZE + off < 2 ^ 64 ->
  Z.shiftr (pointer_diff self (slab_address self j + off)) SLAB_BITS = j.
Proof using SLAB_BITS_range.
  clear SLAB_COUNT_BITS_range.
  intros Hj Hoff Hfit. pose proof SLAB_SIZE_pos as HS.
  unfold pointer_diff, slab_address, to_size_t.
  replace (self + j * SLAB_SIZE + off - self) with (j * SLAB_SIZE + off) by lia.
  rewrite Z.mod_small by nia.
  rewrite Z.shiftr_div_pow2, <- SLAB_SIZE_pow2 by lia.
  rewrite Z.div_add_l by lia. rewrite Z.div_small by lia. lia.
Qed.

(** X8. [slab_to_index] sends every address inside slot [j] to [j] reduced
    to a byte; its assertion holds exactly for [j < 256]; and for a slot of
    the superslab, [j < SLAB_COUNT], the index is [j] itself and [get_meta]
    reads record [j] of the array. *)
Theorem slab_to_index_inside (self : Z) (st : Superslab) (j off : Z) :
  0 <= j ->
  0 <= off < SLAB_SIZE ->
  j * SLAB_SIZE + off < 2 ^ 64 ->
  let p := slab_address self j + off in
  slab_to_index self p = j mod 256 /\
  (slab_to_index_assert self p = true <-> j < 256) /\
  (j < SLAB_COUNT ->
     slab_to_index self p = j /\
     slab_to_index_assert self p = true /\
     get_meta self st p = meta st !!! Z.to_nat j).
Proof using SLAB_COUNT_BITS_range SLAB_BITS_range.
  intros Hj Hoff Hfit p. pose proof SLAB_COUNT_bounds as HC.
  pose proof (shiftr_pointer_diff self j off Hj Hoff Hfit) as E. fold p in E.
  assert (Hidx : slab_to_index self p = j mod 256).
  { unfold slab_to_index. rewrite E. reflexivity. }
  assert (Hass : slab_to_index_assert self p = true <-> j < 256).
  { unfold slab_to_index_assert. rewrite E. unfold to_uint8.
    change (2 ^ 8) with 256. split.
    - intros H. apply Z.eqb_eq in H.
      pose proof (Z.mod_pos_bound j 256 ltac:(lia)). lia.
    - intros H. apply Z.eqb_eq. symmetry. apply Z.mod_small. lia. }
  split; [exact Hidx |]. split; [exact Hass |].
  intros Hlt.
  assert (Ej : slab_to_index self p = j)
    by (rewrite Hidx; apply Z.mod_small; lia).
  split; [exact Ej |]. split; [apply Hass; lia |].
  unfold get_meta, meta_at. rewrite Ej, ModArray_index_small by lia.
  reflexivity.
Qed.

(** X9. [get] rounds an address down to a multiple of [SUPERSLAB_SIZE]: the
    result is aligned, is at most the address and less than
    [SUPERSLAB_SIZE] below it, and [get] of it is itself; so every address
    inside a superslab whose header is aligned leads back to the header. *)
Theorem get_header (p : Z) :
  get p mod SUPERSLAB_SIZE = 0 /\
  get p <= p < get p + SUPERSLAB_SIZE /\
  get (get p) = get p /\
  (forall self off, self mod SUPERSLAB_SIZE = 0 -> 0 <= off < SUPERSLAB_SIZE ->
     get (self + off) = self).
Proof using SLAB_COUNT_BITS_range SLAB_BITS_range.
  pose proof SUPERSLAB_SIZE_pos as HS.
  pose proof get_inside as Hin.
  assert (Hal : get p mod SUPERSLAB_SIZE = 0)
    by (rewrite get_div; apply Z.mod_mul; lia).
  split; [exact Hal |]. split; [| split; [| exact Hin]].
  - rewrite get_div.
    pose proof (Z.div_mod p SUPERSLAB_SIZE ltac:(lia)) as Hd.
    pose proof (Z.mod_pos_bound p SUPERSLAB_SIZE HS). lia.
  - rewrite <- (Z.add_0_r (get p)) at 1. apply Hin; [exact Hal | lia].
Qed.

(** X10. Whatever the state, the slab that [alloc_slab] or
    [alloc_short_slab] returns starts a slot of the superslab at [self]:
    with an aligned header, [get] of any address inside the slab is the
    header again. *)
Theorem get_allocated_slab (self : Z) (st : Superslab) (sizeclass off : Z) :
  self mod SUPERSLAB_SIZE = 0 ->
  0 <= off < SLAB_SIZE ->
  (exists i, 0 <= i < SLAB_COUNT /\
     (alloc_slab self st sizeclass).1 = slab_address self i) /\
  get ((alloc_slab self st sizeclass).1 + off) = self /\
  (exists i, 0 <= i < SLAB_COUNT /\
     (alloc_short_slab self st sizeclass).1 = slab_address self i) /\
  get ((alloc_short_slab self st sizeclass).1 + off) = self.
Proof using SLAB_COUNT_BITS_range SLAB_BITS_range.
  intros Hal Hoff. pose proof SLAB_COUNT_bounds as HC.
  pose proof SLAB_SIZE_pos as HS.
  assert (Hin : forall i, 0 <= i < SLAB_COUNT ->
            get (slab_address self i + off) = self).
  { intros i Hi. unfold slab_address. rewrite <- Z.add_assoc.
    apply get_inside; [exact Hal |]. unfold SUPERSLAB_SIZE. nia. }
  assert (Ha : (alloc_slab self st sizeclass).1
               = slab_address self (Mod_get (head st))).
  { unfold alloc_slab, pointer_offset, slab_address. simpl.
    rewrite slab_offset_size_t by apply Mod_get_range. reflexivity. }
  assert (Hs : exists i, 0 <= i < SLAB_COUNT /\
             (alloc_short_slab self st sizeclass).1 = slab_address self i).
  { destruct (Z.odd (used st)) eqn:Ho.
    - rewrite alloc_short_slab_odd by exact Ho.
      exists (Mod_get (head st)). split; [apply Mod_get_range | exact Ha].
    - rewrite alloc_short_slab_even by (rewrite <- Z.negb_odd, Ho; reflexivity).
      exists 0. split; [lia |]. unfold slab_address. simpl. lia. }
  split; [exists (Mod_get (head st)); split; [apply Mod_get_range | exact Ha] |].
  split; [rewrite Ha; apply Hin, Mod_get_range |].
  split; [exact Hs |].
  destruct Hs as (i & Hi & ->). apply Hin, Hi.
Qed.


(** X11. The record of a slab is found again from any address inside it.
    After [alloc_slab], in a state that satisfies the invariant and is not
    almost full, [slab_to_index] of an address inside the returned slab is
    the slot that [head] named, its assertion holds, and [get_meta] reads
    the record just written: it holds the size class and is marked full. *)
Theorem get_meta_after_alloc_slab (self : Z) (st : Superslab) (sizeclass off : Z) :
  invariant st = true ->
  is_almost_full st = false ->
  0 <= sizeclass < 256 ->
  0 <= off < SLAB_SIZE ->
  let r := alloc_slab self st sizeclass in
  slab_to_index self (r.1 + off) = Mod_get (head st) /\
  slab_to_index_assert self (r.1 + off) = true /\
  Metaslab.sizeclass (get_meta self r.2 (r.1 + off)) = sizeclass /\
  Metaslab.full (get_meta self r.2 (r.1 + off)) = true /\
  Metaslab.free_queue (get_meta self r.2 (r.1 + off)) = [].
Proof using SLAB_COUNT_BITS_range SLAB_BITS_range.
  intros Hinv Hnf Hsc Hoff r. pose proof SLAB_COUNT_bounds as HC.
  apply invariant_chain_inv in Hinv as (l & Hinv).
  destruct (alloc_slab_chain_inv self st sizeclass l Hinv Hnf)
    as (l' & -> & Hh & Haddr & _ & _).
  destruct Hinv as (Hlen & _).
  fold r in Haddr. rewrite Haddr.
  pose proof (slab_offset_range (Mod_get (head st)) ltac:(lia)) as Hfit.
  pose proof SLAB_SIZE_pos as HS.
  pose proof (shiftr_pointer_diff self (Mod_get (head st)) off ltac:(lia) Hoff) as E.
  assert (Hlt : Mod_get (head st) * SLAB_SIZE + off < 2 ^ 64).
  { apply Z.lt_le_trans with (SLAB_COUNT * SLAB_SIZE); [nia |].
    rewrite SLAB_SIZE_pow2, SLAB_COUNT_pow2, <- Z.pow_add_r by lia.
    apply Z.pow_le_mono_r; lia. }
  specialize (E Hlt).
  assert (Hidx : slab_to_index self (slab_address self (Mod_get (head st)) + off)
                 = Mod_get (head st)).
  { unfold slab_to_index. rewrite E. apply to_uint8_small. lia. }
  split; [exact Hidx |]. split.
  { unfold slab_to_index_assert. rewrite E. apply Z.eqb_eq.
    symmetry. apply to_uint8_small. lia. }
  unfold get_meta. rewrite Hidx.
  assert (Hrec : meta_at r.2 (Mod_get (head st)) =
                 Metaslab.set_sizeclass (to_uint8 sizeclass)
                   (Metaslab.set_full
                      (Metaslab.free_queue_init (meta_at st (Mod_get (head st)))))).
  { subst r. unfold alloc_slab, meta_at at 1. simpl.
    rewrite list_lookup_total_insert_eq; [reflexivity |].
    rewrite Hlen. apply ModArray_index_lt. }
  rewrite Hrec. simpl.
  split; [apply to_uint8_small; exact Hsc |]. split; reflexivity.
Qed.

(** X12. So it is for the short slab: with the short slab free,
    [alloc_short_slab] returns the header's address, every address of the
    first slot has index 0, and [get_meta] reads record 0, which holds the
    size class and is marked full. *)
Theorem get_meta_after_alloc_short_slab (self : Z) (st : Superslab)
    (sizeclass off : Z) :
  meta_ok st = true ->
  Z.even (used st) = true ->
  0 <= sizeclass < 256 ->
  0 <= off < SLAB_SIZE ->
  let r := alloc_short_slab self st sizeclass in
  r.1 = self /\
  slab_to_index self (r.1 + off) = 0 /\
  Metaslab.sizeclass (get_meta self r.2 (r.1 + off)) = sizeclass /\
  Metaslab.full (get_meta self r.2 (r.1 + off)) = true /\
  Metaslab.free_queue (get_meta self r.2 (r.1 + off)) = [].
Proof using SLAB_COUNT_BITS_range SLAB_BITS_range.
  intros Hlen He Hsc Hoff r. pose proof SLAB_COUNT_bounds as HC.
  apply bool_decide_eq_true in Hlen.
  subst r. rewrite alloc_short_slab_even by exact He. simpl.
  pose proof (shiftr_pointer_diff self 0 off ltac:(lia) Hoff) as E.
  unfold slab_address in E. rewrite Z.mul_0_l, Z.add_0_r in E.
  assert (Hfit : 0 + off < 2 ^ 64).
  { pose proof (slab_offset_range 1 ltac:(lia)). lia. }
  specialize (E Hfit).
  assert (Hidx : slab_to_index self (self + off) = 0).
  { unfold slab_to_index. rewrite E. reflexivity. }
  split; [reflexivity |]. split; [exact Hidx |].
  unfold get_meta, meta_at. rewrite Hidx, ModArray_index_0. simpl.
  rewrite list_lookup_total_insert_eq by lia. simpl.
  split; [apply to_uint8_small; exact Hsc |]. split; reflexivity.
Qed.

(** X13. [dealloc_slab] writes one record and two of its fields.  Whatever
    the state and the address, the record of every other slot is as
    before, the record of the slot itself keeps its free list and its full
    mark, and [kind] and [allocator] are untouched: the call never clears
    what [alloc_slab] marked. *)
Theorem dealloc_slab_frame (self : Z) (st : Superslab) (slab : Z) :
  let index := Mod_get (slab_to_index self slab) in
  let d := dealloc_slab self st slab in
  (forall i, 0 <= i < SLAB_COUNT -> i <> index -> meta_at d.2 i = meta_at st i) /\
  Metaslab.free_queue (meta_at d.2 index) = Metaslab.free_queue (meta_at st index) /\
  Metaslab.full (meta_at d.2 index) = Metaslab.full (meta_at st index) /\
  length (meta d.2) = length (meta st) /\
  kind d.2 = kind st /\ allocator d.2 = allocator st.
Proof using SLAB_COUNT_BITS_range.
  intros index d. pose proof SLAB_COUNT_bounds as HC.
  assert (Hi : ModArray_index (to_uint8 (slab_to_index self slab)) = Z.to_nat index).
  { unfold ModArray_index, index. fold (Mod_get (to_uint8 (slab_to_index self slab))).
    rewrite !Mod_get_mod, to_uint8_mod_SLAB_COUNT. reflexivity. }
  assert (Hm : meta d.2 =
               <[Z.to_nat index :=
                   Metaslab.set_next
                     (to_uint8 (Mod_get (head st)
                                - to_uint8 (slab_to_index self slab) - 1))
                     (<[Z.to_nat index :=
                          Metaslab.set_sizeclass 0 (meta st !!! Z.to_nat index)]>
                        (meta st) !!! Z.to_nat index)]>
                 (<[Z.to_nat index :=
                      Metaslab.set_sizeclass 0 (meta st !!! Z.to_nat index)]>
                    (meta st))).
  { subst d. unfold dealloc_slab.
    destruct (_ || _); simpl; unfold meta_at, set_meta_at; simpl;
      rewrite Hi; reflexivity. }
  pose proof (Mod_get_range (slab_to_index self slab)) as Hr. fold index in Hr.
  assert (Hidx : meta_at d.2 index = meta d.2 !!! Z.to_nat index).
  { unfold meta_at. rewrite ModArray_index_small by exact Hr. reflexivity. }
  assert (Hidx0 : meta_at st index = meta st !!! Z.to_nat index).
  { unfold meta_at. rewrite ModArray_index_small by exact Hr. reflexivity. }
  split.
  { intros i Hir Hne. unfold meta_at. rewrite Hm.
    rewrite ModArray_index_small by exact Hir.
    rewrite !list_lookup_total_insert_ne by lia. reflexivity. }
  rewrite Hidx, Hidx0, Hm.
  destruct (decide (Z.to_nat index < length (meta st))%nat) as [Hlt | Hge].
  - rewrite !list_lookup_total_insert_eq by (rewrite ?length_insert; exact Hlt).
    simpl. split; [reflexivity |]. split; [reflexivity |].
    split; [rewrite !length_insert; reflexivity |].
    subst d. rewrite dealloc_slab_kind. split; [reflexivity |].
    unfold dealloc_slab. destruct (_ || _); reflexivity.
  - rewrite !(list_insert_ge (meta st)) by lia.
    split; [reflexivity |]. split; [reflexivity |]. split; [reflexivity |].
    subst d. rewrite dealloc_slab_kind. split; [reflexivity |].
    unfold dealloc_slab. destruct (_ || _); reflexivity.
Qed.


(** ** Further properties: [init] *)

(** With nothing handed out the free list holds every regular slot. *)
Lemma free_list_all_regular (self : Z) (s : Superslab) (l : list Z) :
  chain_inv s l -> out_inv self s l [] -> l ≡ₚ seqZ 1 (SLAB_COUNT - 1).
Proof using SLAB_COUNT_BITS_range SLAB_BITS_range.
  intros Hinv Hout. pose proof Hinv as (_ & _ & Hl & _).
  apply NoDup_Permutation;
    [exact (chain_from_NoDup _ _ _ _ Hl) | apply NoDup_seqZ |].
  intros x. rewrite elem_of_seqZ. split.
  - intros Hx.
    pose proof (chain_from_regular _ _ _ _ Hl (Mod_get_head_range s) x Hx). lia.
  - intros Hx.
    destruct (free_list_complete self s l [] Hinv Hout x ltac:(lia)) as [H | H];
      [exact H | apply elem_of_nil in H; contradiction].
Qed.

(** X14. The debug block of [init] accepts no superslab in use.  In a state
    that satisfies the invariant with [0 < used < SLAB_COUNT], the walk
    follows fewer links than the free list has, stops on a free regular
    slot and [init] aborts, when the header is a superslab's and smaller
    than a page, so that [init] rebuilds nothing. *)
Theorem init_debug_aborts_in_use (alloc : Z) (st : Superslab) :
  invariant st = true ->
  kind st = Super ->
  sizeof_Superslab < OS_PAGE_SIZE ->
  1 <= used st <= SLAB_COUNT - 1 ->
  (exists l, free_list st = Some l /\ (init_debug_steps st < length l)%nat /\
     Mod_get (init_debug_walk st) ∈ l) /\
  Mod_get (init_debug_walk st) <> 0 /\
  init_debug alloc st = None.
Proof using SLAB_COUNT_BITS_range.
  intros Hinv Hk Hsmall Hu. pose proof SLAB_COUNT_bounds as HC.
  apply invariant_chain_inv in Hinv as (l & Hlen & Hused & Hl & Hcount).
  rewrite shiftr_1_half in Hcount.
  assert (Hhalf : used st / 2 < used st)
    by (apply Z.div_lt_upper_bound; lia).
  assert (Hsteps : init_debug_steps st = Z.to_nat (SLAB_COUNT - used st - 1)).
  { unfold init_debug_steps, to_size_t. rewrite Z.mod_small by lia. reflexivity. }
  assert (Hlt : (init_debug_steps st < length l)%nat) by lia.
  pose proof (walk_chain_lt _ _ _ _ _ Hl Hlt) as Hw.
  assert (Hin : Mod_get (init_debug_walk st) ∈ l).
  { unfold init_debug_walk. rewrite debug_walk_chain.
    exact (list_elem_of_lookup_2 _ _ _ Hw). }
  assert (Hne : Mod_get (init_debug_walk st) <> 0).
  { pose proof (chain_from_regular _ _ _ _ Hl (Mod_get_head_range st) _ Hin). lia. }
  split; [exists l; repeat split; assumption |]. split; [exact Hne |].
  unfold init_debug. rewrite init_keep by assumption.
  unfold init_debug_check.
  change (init_debug_walk (with_allocator alloc st)) with (init_debug_walk st).
  apply Z.eqb_neq in Hne. rewrite Hne. reflexivity.
Qed.

(** X15. [init] on memory that held something else does not depend on what
    it held.  If the region is not fresh and either was no superslab or has
    a header of a page or more, the result is the empty superslab owned by
    [alloc]: [head] on slot 1, [used = 0], every record in its default
    state, the free list [1, ..., SLAB_COUNT-1]; the debug block passes. *)
Theorem init_recycled (alloc : Z) (s : Superslab) :
  kind s <> Fresh ->
  kind s <> Super \/ OS_PAGE_SIZE <= sizeof_Superslab ->
  meta_ok s = true ->
  init alloc s =
    mkSuperslab Super alloc 1 0 (replicate (Z.to_nat SLAB_COUNT) Metaslab.default) /\
  init_debug alloc s = Some (init alloc s) /\
  invariant (init alloc s) = true /\
  get_status (init alloc s) = Empty /\
  free_list (init alloc s) = Some (seqZ 1 (SLAB_COUNT - 1)).
Proof using SLAB_COUNT_BITS_range.
  intros Hk Hc Hlen. apply bool_decide_eq_true in Hlen.
  pose proof SLAB_COUNT_bounds as HC.
  pose proof (init_reset alloc s Hk Hc Hlen) as E.
  destruct (init_debug_reset alloc s Hk Hc Hlen) as (Hinv & Hdbg).
  split; [exact E |]. split; [exact Hdbg |]. split; [exact Hinv |].
  rewrite E. split.
  - rewrite get_status_used. simpl.
    destruct (Z.ltb_spec 0 (2 * (SLAB_COUNT - 1))); [reflexivity | lia].
  - assert (Hci : chain_inv
              (mkSuperslab Super alloc (Mod_set 1) 0
                 (replicate (Z.to_nat SLAB_COUNT) Metaslab.default))
              (seqZ 1 (SLAB_COUNT - 1))).
    { apply zero_links_chain_inv; simpl.
      - apply length_replicate.
      - intros i _. apply replicate_default_next.
      - apply Mod_get_set_1.
      - reflexivity. }
    destruct Hci as (_ & _ & Hl & _). exact Hl.
Qed.

(** X16. [init] on a reachable superslab that is empty leaves an empty
    superslab of the new owner that satisfies the invariant and whose free
    list holds every regular slot; with a header smaller than a page nothing
    is rebuilt, and the free list keeps the order the earlier calls left. *)
Theorem init_again (self alloc : Z) (st : Superslab) :
  reachable self st [] ->
  is_empty st = true ->
  let s' := init alloc st in
  kind s' = Super /\
  allocator s' = alloc /\
  used s' = 0 /\
  invariant s' = true /\
  get_status s' = Empty /\
  (exists l, free_list s' = Some l /\ l ≡ₚ seqZ 1 (SLAB_COUNT - 1)) /\
  (sizeof_Superslab < OS_PAGE_SIZE ->
     head s' = head st /\ meta s' = meta st /\ free_list s' = free_list st).
Proof using SLAB_COUNT_BITS_range SLAB_BITS_range.
  intros Hr He s'. pose proof SLAB_COUNT_bounds as HC.
  destruct (reachable_inv self st [] Hr) as (Hk & l0 & Hinv0 & _).
  pose proof (reach_again self alloc st Hr He) as Hr'. fold s' in Hr'.
  destruct (reachable_inv self s' [] Hr') as (Hk' & l & Hinv & Hout).
  pose proof Hinv as (_ & _ & Hl & _).
  pose proof Hout as (_ & Hn & _).
  apply Z.eqb_eq in He.
  assert (Hu : used s' = 0).
  { destruct (Z.lt_ge_cases sizeof_Superslab OS_PAGE_SIZE) as [Hs | Hb].
    - subst s'. rewrite init_keep by assumption. exact He.
    - destruct Hinv0 as (Hlen & _). subst s'.
      rewrite init_reset; [reflexivity | congruence | right; exact Hb | exact Hlen]. }
  split; [exact Hk' |]. split.
  { destruct (Z.lt_ge_cases sizeof_Superslab OS_PAGE_SIZE) as [Hs | Hb].
    - subst s'. rewrite init_keep by assumption. reflexivity.
    - destruct Hinv0 as (Hlen & _). subst s'.
      rewrite init_reset; [reflexivity | congruence | right; exact Hb | exact Hlen]. }
  split; [exact Hu |].
  split; [apply invariant_chain_inv; exists l; exact Hinv |]. split.
  { rewrite get_status_used, Hu. simpl.
    destruct (Z.ltb_spec 0 (2 * (SLAB_COUNT - 1))); [reflexivity | lia]. }
  split.
  { exists l. split; [exact Hl |].
    exact (free_list_all_regular self s' l Hinv Hout). }
  intros Hs. subst s'. rewrite init_keep by assumption.
  repeat split; reflexivity.
Qed.

(** ** Further properties: short size classes *)

Lemma smallest_class_from_ge (n : nat) :
  forall c0 size, c0 <= smallest_class_from n c0 size.
Proof.
  induction n as [| n IH]; intros c0 size; simpl; [lia |].
  destruct (size <=? sizeclass_to_size c0); [lia |].
  specialize (IH (c0 + 1) size). lia.
Qed.

(** X17. When the sizes of the table do not decrease with the class,
    [is_short_sizeclass] holds of a class of the table exactly when the
    largest object of the class is strictly smaller than
    [SLAB_SIZE - sizeof (Superslab)]; a class that fills this space to the
    byte is left out. *)
Theorem is_short_sizeclass_exact (sizeclass : Z) :
  (forall a b, 0 <= a <= b -> b < Z.of_nat NUM_SIZECLASSES ->
     sizeclass_to_size a <= sizeclass_to_size b) ->
  0 <= sizeclass < Z.of_nat NUM_SIZECLASSES ->
  (is_short_sizeclass sizeclass = true <->
     sizeclass_to_size sizeclass < SLAB_SIZE - sizeof_Superslab) /\
  (sizeclass_to_size sizeclass = SLAB_SIZE - sizeof_Superslab ->
     is_short_sizeclass sizeclass = false).
Proof.
  intros Hmono Hc. unfold is_short_sizeclass, size_to_sizeclass_const.
  set (size := SLAB_SIZE - sizeof_Superslab).
  set (h := smallest_class_from NUM_SIZECLASSES 0 size).
  assert (Hiff : (sizeclass <? h) = true <-> sizeclass_to_size sizeclass < size).
  { rewrite Z.ltb_lt. split.
    - intros Hlt. apply (smallest_class_from_below NUM_SIZECLASSES 0).
      fold h. lia.
    - intros Hsz. destruct (Z.lt_ge_cases sizeclass h) as [Hlt | Hge];
        [exact Hlt | exfalso].
      pose proof (smallest_class_from_ge NUM_SIZECLASSES 0 size) as H0. fold h in H0.
      pose proof (smallest_class_from_found NUM_SIZECLASSES 0 size) as Hf.
      fold h in Hf. specialize (Hf ltac:(lia)).
      specialize (Hmono h sizeclass ltac:(lia) ltac:(lia)). lia. }
  split; [exact Hiff |].
  intros E. apply not_true_is_false. intros Hb.
  apply Hiff in Hb. lia.
Qed.


(** ** Further properties: sequences of allocations *)

Lemma alloc_slab_links (self : Z) (s : Superslab) (sizeclass : Z) :
  forall j, Metaslab.next (meta (alloc_slab self s sizeclass).2 !!! j)
            = Metaslab.next (meta s !!! j).
Proof.
  intros j. unfold alloc_slab, set_meta_at, meta_at. simpl.
  apply insert_next_same. reflexivity.
Qed.

(** A run of allocations over links that are all zero takes the slots in
    ascending order. *)
Lemma alloc_slabs_zero_links (self : Z) (cs : list Z) :
  forall (s : Superslab) (k : Z),
    length (meta s) = Z.to_nat SLAB_COUNT ->
    (forall i, 0 <= i < SLAB_COUNT -> Metaslab.next (meta s !!! Z.to_nat i) = 0) ->
    Mod_get (head s) = k mod SLAB_COUNT ->
    1 <= k -> k + Z.of_nat (length cs) <= SLAB_COUNT ->
    0 <= used s -> used s + 2 * Z.of_nat (length cs) < 65536 ->
    (alloc_slabs self s cs).1 = slab_address self <$> seqZ k (Z.of_nat (length cs)) /\
    used (alloc_slabs self s cs).2 = used s + 2 * Z.of_nat (length cs) /\
    Mod_get (head (alloc_slabs self s cs).2)
      = (k + Z.of_nat (length cs)) mod SLAB_COUNT /\
    length (meta (alloc_slabs self s cs).2) = Z.to_nat SLAB_COUNT /\
    (forall i, 0 <= i < SLAB_COUNT ->
       Metaslab.next (meta (alloc_slabs self s cs).2 !!! Z.to_nat i) = 0).
Proof using SLAB_COUNT_BITS_range SLAB_BITS_range.
  pose proof SLAB_COUNT_bounds as HC.
  induction cs as [| c cs IH]; intros s k Hlen Hz Hh Hk Hsum Hu0 Hu1.
  - simpl. split; [reflexivity |]. split; [lia |].
    split; [rewrite Z.add_0_r; exact Hh |]. split; assumption.
  - simpl length in *. rewrite Nat2Z.inj_succ in *.
    assert (Hkm : k mod SLAB_COUNT = k) by (apply Z.mod_small; lia).
    rewrite Hkm in Hh.
    set (r := alloc_slab self s c).
    assert (Hr1 : r.1 = slab_address self k).
    { unfold r, alloc_slab, pointer_offset, slab_address. simpl.
      rewrite Hh, slab_offset_size_t by lia. reflexivity. }
    assert (Hr2 : Mod_get (head r.2) = (k + 1) mod SLAB_COUNT).
    { unfold r. rewrite head_after_alloc_slab, Hh. unfold chain_next.
      rewrite Hz by lia. f_equal. lia. }
    assert (Hr3 : used r.2 = used s + 2).
    { unfold r, alloc_slab. simpl. apply to_uint16_small. lia. }
    assert (Hr4 : length (meta r.2) = Z.to_nat SLAB_COUNT).
    { unfold r, alloc_slab. simpl. rewrite length_insert. exact Hlen. }
    assert (Hr5 : forall i, 0 <= i < SLAB_COUNT ->
              Metaslab.next (meta r.2 !!! Z.to_nat i) = 0).
    { intros i Hi. unfold r. rewrite alloc_slab_links. apply Hz, Hi. }
    destruct (IH r.2 (k + 1) Hr4 Hr5 Hr2 ltac:(lia) ltac:(lia) ltac:(lia) ltac:(lia))
      as (I1 & I2 & I3 & I4 & I5).
    change (alloc_slabs self s (c :: cs))
      with (r.1 :: (alloc_slabs self r.2 cs).1, (alloc_slabs self r.2 cs).2).
    cbn [fst snd].
    split.
    { rewrite I1, Hr1, (seqZ_cons k) by lia. simpl.
      do 3 f_equal; lia. }
    split; [lia |]. split; [rewrite I3; f_equal; lia |].
    split; [exact I4 | exact I5].
Qed.

(** X18. From a header whose links are all zero, with [head] on slot 1 and
    nothing in use, as [init] leaves it, [n <= SLAB_COUNT - 1] calls of
    [alloc_slab] return the slabs of the slots 1, 2, ..., n in this order;
    afterwards [used = 2 n], the free list is [n+1, ..., SLAB_COUNT-1], the
    invariant holds, and the superslab is almost full exactly when
    [n = SLAB_COUNT - 1]. *)
Theorem alloc_slabs_in_order (self : Z) (st : Superslab) (sizeclasses : list Z) :
  meta_ok st = true ->
  (forall i, 0 <= i < SLAB_COUNT -> Metaslab.next (meta_at st i) = 0) ->
  head st = 1 ->
  used st = 0 ->
  Z.of_nat (length sizeclasses) <= SLAB_COUNT - 1 ->
  let n := Z.of_nat (length sizeclasses) in
  let r := alloc_slabs self st sizeclasses in
  r.1 = slab_address self <$> seqZ 1 n /\
  used r.2 = 2 * n /\
  free_list r.2 = Some (seqZ (n + 1) (SLAB_COUNT - 1 - n)) /\
  invariant r.2 = true /\
  (is_almost_full r.2 = true <-> n = SLAB_COUNT - 1).
Proof using SLAB_COUNT_BITS_range SLAB_BITS_range.
  intros Hlen Hz Hh Hu Hn n r. pose proof SLAB_COUNT_bounds as HC.
  apply bool_decide_eq_true in Hlen.
  assert (Hz' : forall i, 0 <= i < SLAB_COUNT ->
                  Metaslab.next (meta st !!! Z.to_nat i) = 0).
  { intros i Hi. specialize (Hz i Hi). unfold meta_at in Hz.
    rewrite ModArray_index_small in Hz by assumption. exact Hz. }
  assert (Hg : Mod_get (head st) = 1 mod SLAB_COUNT).
  { rewrite Hh, Z.mod_small by lia. apply Mod_get_small. lia. }
  destruct (alloc_slabs_zero_links self sizeclasses st 1 Hlen Hz' Hg
              ltac:(lia) ltac:(lia) ltac:(lia) ltac:(lia))
    as (I1 & I2 & I3 & I4 & I5).
  fold r n in I1, I2, I3, I4, I5. rewrite Hu in I2.
  assert (Hl : free_list r.2 = Some (seqZ (n + 1) (SLAB_COUNT - 1 - n))).
  { unfold free_list. rewrite I3, (Z.add_comm 1 n).
    pose proof (chain_from_zero_links (meta r.2) I5
                  (Z.to_nat (SLAB_COUNT - 1 - n)) (n + 1)
                  (Z.to_nat SLAB_COUNT)) as H.
    rewrite Z2Nat.id in H by lia. apply H; lia. }
  split; [exact I1 |]. split; [lia |]. split; [exact Hl |]. split.
  - apply invariant_chain_inv. exists (seqZ (n + 1) (SLAB_COUNT - 1 - n)).
    unfold chain_inv. rewrite I2, length_seqZ, shiftr_1_half.
    replace (0 + 2 * n) with (n * 2) by lia. rewrite Z.div_mul by lia.
    repeat split; try assumption; lia.
  - destruct (is_almost_full r.2) eqn:E.
    + split; [intros _ | reflexivity].
      destruct (Z.eq_dec n (SLAB_COUNT - 1)) as [En | Hne]; [exact En |].
      assert (Hlt : used r.2 < 2 * (SLAB_COUNT - 1)) by lia.
      apply is_almost_full_false in Hlt. congruence.
    + split; [discriminate |]. intros En.
      apply is_almost_full_false in E. lia.
Qed.

(** X19. A regular allocation and a short one commute.  In a state that
    satisfies the invariant, is not almost full and has the short slab free,
    [alloc_slab] then [alloc_short_slab] and [alloc_short_slab] then
    [alloc_slab] return the same two slabs and leave the same state. *)
Theorem alloc_slab_short_slab_commute (self : Z) (st : Superslab) (a b : Z) :
  invariant st = true ->
  is_almost_full st = false ->
  Z.even (used st) = true ->
  let r1 := alloc_slab self st a in
  let r2 := alloc_short_slab self r1.2 b in
  let q1 := alloc_short_slab self st b in
  let q2 := alloc_slab self q1.2 a in
  r1.1 = q2.1 /\ r2.1 = q1.1 /\ r2.2 = q2.2 /\ used r2.2 = used st + 3.
Proof using SLAB_COUNT_BITS_range SLAB_BITS_range.
  intros Hinv Hnf He r1 r2 q1 q2. pose proof SLAB_COUNT_bounds as HC.
  apply invariant_chain_inv in Hinv as (l & Hinv).
  destruct (alloc_slab_chain_inv self st a l Hinv Hnf)
    as (l' & -> & Hh & _ & Hu1 & _).
  destruct Hinv as (Hlen & Hused & _).
  apply is_almost_full_false in Hnf.
  fold r1 in Hu1.
  assert (He1 : Z.even (used r1.2) = true).
  { rewrite Hu1, Z.even_add, He. reflexivity. }
  assert (Hne : ModArray_index (Mod_get (head st)) <> 0%nat).
  { rewrite ModArray_index_small by lia. lia. }
  subst r2 q2 q1. rewrite (alloc_short_slab_even self r1.2) by exact He1.
  rewrite (alloc_short_slab_even self st) by exact He.
  subst r1. unfold alloc_slab, set_meta_at, meta_at. simpl.
  rewrite (list_lookup_total_insert_ne _ _ 0%nat) by exact Hne.
  rewrite (list_lookup_total_insert_ne _ 0%nat) by congruence.
  rewrite (list_insert_insert_ne _ 0%nat) by congruence.
  rewrite !to_uint16_small by (rewrite ?to_uint16_small by lia; lia).
  split; [reflexivity |]. split; [reflexivity |]. split.
  - unfold with_used, with_head, with_meta. simpl. f_equal. lia.
  - simpl. lia.
Qed.


End Superslab.

(** ** A superslab of four slots

    The superslab of the threshold scenarios: slot 0 is the short slab, slots
    1, 2 and 3 are regular slabs of 64 KiB; the header takes 2048 bytes of
    the first slab and a page has 4096 bytes. *)

Definition four_self : Z := 16777216.
Definition four_owner : Z := 4096.

Definition four_memory : Superslab :=
  mkSuperslab Fresh 0 0 0 (replicate 4 Metaslab.default).

Definition four_fresh : Superslab := init 2 2048 4096 four_owner four_memory.

Definition four_slab1 : Z := (alloc_slab 2 16 four_self four_fresh 5).1.
Definition four_one : Superslab := (alloc_slab 2 16 four_self four_fresh 5).2.

Definition four_slab2 : Z := (alloc_slab 2 16 four_self four_one 6).1.
Definition four_two : Superslab := (alloc_slab 2 16 four_self four_one 6).2.

Definition four_slab3 : Z := (alloc_slab 2 16 four_self four_two 7).1.
Definition four_three : Superslab := (alloc_slab 2 16 four_self four_two 7).2.

Definition four_short : Superslab := (alloc_short_slab 2 16 four_self four_fresh 3).2.

Definition four_full : Superslab := (alloc_short_slab 2 16 four_self four_three 3).2.

(** The first slab once its objects are all returned: the object-level
    code has put its record back in the unused state. *)
Definition four_one_unused : Superslab :=
  set_meta_at 2 (slab_to_index 16 four_self four_slab1) Metaslab.default four_one.

(** A table of sixteen size classes, of 16, 32, 64, ... bytes. *)
Definition pow2_classes (c : Z) : Z := 2 ^ (c + 4).

Lemma four_bits_range : 1 <= 2 <= 8.
Proof. lia. Defined.

Lemma four_slab_bits_range : 0 <= 16 /\ 16 + 2 < 64.
Proof. lia. Defined.

Lemma four_fresh_reachable :
  reachable 2 16 2048 4096 four_self four_fresh [].
Proof.
  unfold four_fresh. apply reach_fresh; [reflexivity |].
  unfold zero_filled. repeat split; reflexivity.
Defined.

Lemma four_one_reachable :
  reachable 2 16 2048 4096 four_self four_one [four_slab1].
Proof.
  unfold four_one, four_slab1.
  apply reach_alloc_slab; [apply four_fresh_reachable | reflexivity].
Defined.

Lemma four_two_reachable :
  reachable 2 16 2048 4096 four_self four_two [four_slab2; four_slab1].
Proof.
  unfold four_two, four_slab2.
  apply reach_alloc_slab; [apply four_one_reachable | reflexivity].
Defined.

Lemma four_three_reachable :
  reachable 2 16 2048 4096 four_self four_three [four_slab3; four_slab2; four_slab1].
Proof.
  unfold four_three, four_slab3.
  apply reach_alloc_slab; [apply four_two_reachable | reflexivity].
Defined.

(** The threshold scenarios: three allocations fill the regular slots one
    after the other, the short slab fills the superslab, and giving slot 3
    back from the full superslab changes the status. *)
Example four_scenario :
  [four_slab1; four_slab2; four_slab3]
    = [four_self + 65536; four_self + 2 * 65536; four_self + 3 * 65536] /\
  map used [four_fresh; four_one; four_two; four_three; four_full] = [0; 2; 4; 6; 7] /\
  map (get_status 2) [four_fresh; four_one; four_two; four_three; four_full]
    = [Empty; Available; Available; OnlyShortSlabAvailable; Full] /\
  map (free_list 2) [four_fresh; four_one; four_two; four_three; four_full]
    = [Some [1; 2; 3]; Some [2; 3]; Some [3]; Some []; Some []] /\
  (dealloc_slab 2 16 four_self four_full four_slab3).1 = StatusChange /\
  used (dealloc_slab 2 16 four_self four_full four_slab3).2 = 5 /\
  free_list 2 (dealloc_slab 2 16 four_self four_full four_slab3).2 = Some [3].
Proof. vm_compute. repeat split. Qed.

(** ** The properties on the superslab of four slots *)

(** C1 with two regular slabs and the short slab in use. *)
Lemma status_queries_spec_witness :
  (0 <= 2 <= SLAB_COUNT 2 - 1) /\ used (with_used 5 four_two) = 2 * 2 + 1 /\
  (get_status 2 (with_used 5 four_two) = Available
     <-> 0 < used (with_used 5 four_two) < 2 * (SLAB_COUNT 2 - 1)).
Proof.
  assert (Hk : 0 <= 2 <= SLAB_COUNT 2 - 1) by (vm_compute; split; discriminate).
  split; [exact Hk |]. split; [reflexivity |].
  pose proof (status_queries_spec 2 four_bits_range (with_used 5 four_two) 2 1
                Hk (or_intror eq_refl) eq_refl) as H.
  exact (proj1 (proj2 (proj2 (proj2 (proj2 (proj2 H)))))).
Defined.

Lemma four_fresh_links (i : Z) :
  0 <= i < SLAB_COUNT 2 -> Metaslab.next (meta_at 2 four_fresh i) = 0.
Proof.
  intros Hi. change (SLAB_COUNT 2) with 4 in Hi.
  assert (E : i = 0 \/ i = 1 \/ i = 2 \/ i = 3) by lia.
  destruct E as [-> | [-> | [-> | ->]]]; reflexivity.
Defined.

(** C2 on the header that [init] leaves in fresh memory. *)
Lemma zero_initialised_free_list_witness :
  head four_fresh = 1 /\
  free_list 2 four_fresh = Some [1; 2; 3] /\
  walk 2 (meta four_fresh) 3 1 = 0.
Proof.
  pose proof (zero_initialised_free_list 2 four_bits_range 2048 4096 four_fresh
                four_fresh_links eq_refl) as (Hl & _ & Hw & _).
  split; [reflexivity |]. split; [exact Hl | exact Hw].
Defined.

(** C3 on the first allocation. *)
Lemma alloc_slab_spec_witness :
  invariant 2 four_fresh = true /\ is_almost_full 2 four_fresh = false /\
  four_slab1 = four_self + 1 * SLAB_SIZE 16 /\
  Mod_get 2 (head four_one) = 2 /\
  Metaslab.sizeclass (meta_at 2 four_one 1) = 5 /\
  used four_one = 2.
Proof.
  pose proof (alloc_slab_spec 2 four_bits_range 16 four_slab_bits_range
                four_self four_fresh 5 eq_refl eq_refl ltac:(lia))
    as (Ha & _ & Hh & Hs & _ & _ & _ & Hu & _).
  split; [reflexivity |]. split; [reflexivity |].
  split; [exact Ha |]. split; [exact Hh |]. split; [exact Hs | exact Hu].
Defined.

(** C4 on the slab of slot 2, given back when the three regular slabs are
    in use. *)
Lemma dealloc_slab_spec_witness :
  four_slab2 ∈ [four_slab3; four_slab2; four_slab1] /\
  slab_to_index 16 four_self four_slab2 = 2 /\
  Metaslab.next (meta_at 2 (dealloc_slab 2 16 four_self four_three four_slab2).2 2)
    = (0 - 2 - 1) mod 256 /\
  used (dealloc_slab 2 16 four_self four_three four_slab2).2 = 4 /\
  (dealloc_slab 2 16 four_self four_three four_slab2).1 = StatusChange.
Proof.
  assert (Hin : four_slab2 ∈ [four_slab3; four_slab2; four_slab1])
    by (right; left).
  pose proof (dealloc_slab_spec 2 four_bits_range 16 four_slab_bits_range
                2048 4096 four_self four_three _ four_slab2
                four_three_reachable Hin)
    as (_ & _ & _ & _ & Hn & _ & _ & Hu & Ha & _).
  split; [exact Hin |]. split; [reflexivity |].
  split; [exact Hn |]. split; [exact Hu | exact Ha].
Defined.

(** C4 as stated fails where [SLAB_COUNT] is less than 256: with the three
    regular slabs in use [head] reads 0, and the link stored for slot 3 is
    the byte 252, not [(0 - 3 - 1) mod 4 = 0]. *)
Lemma dealloc_slab_link_counterexample :
  reachable 2 16 2048 4096 four_self four_three [four_slab3; four_slab2; four_slab1] /\
  four_slab3 ∈ [four_slab3; four_slab2; four_slab1] /\
  Metaslab.next
    (meta_at 2 (dealloc_slab 2 16 four_self four_three four_slab3).2
       (slab_to_index 16 four_self four_slab3)) = 252 /\
  (Mod_get 2 (head four_three) - slab_to_index 16 four_self four_slab3 - 1)
    mod SLAB_COUNT 2 = 0 /\
  Metaslab.next
    (meta_at 2 (dealloc_slab 2 16 four_self four_three four_slab3).2
       (slab_to_index 16 four_self four_slab3))
  <> (Mod_get 2 (head four_three) - slab_to_index 16 four_self four_slab3 - 1)
       mod SLAB_COUNT 2.
Proof.
  split; [exact four_three_reachable |]. split; [left |].
  split; [reflexivity |]. split; [reflexivity |].
  vm_compute. discriminate.
Qed.

(** C5 on the first allocation: given back at once, and given back once its
    record is unused. *)
Lemma alloc_dealloc_round_trip_witness :
  is_almost_full 2 four_fresh = false /\
  dealloc_slab_debug 2 16 four_self four_one four_slab1 = None /\
  free_list 2 (dealloc_slab 2 16 four_self four_one four_slab1).2 = Some [1; 2; 3] /\
  dealloc_slab_debug 2 16 four_self four_one_unused four_slab1
    = Some (dealloc_slab 2 16 four_self four_one_unused four_slab1) /\
  Mod_get 2 (head (dealloc_slab 2 16 four_self four_one_unused four_slab1).2)
    = Mod_get 2 (head four_fresh) /\
  free_list 2 (dealloc_slab 2 16 four_self four_one_unused four_slab1).2
    = Some [1; 2; 3].
Proof.
  pose proof (alloc_dealloc_round_trip 2 four_bits_range 16 four_slab_bits_range
                2048 4096 four_self four_fresh [] 5 four_fresh_reachable eq_refl)
    as (Hdbg & (_ & (l & Hl & Hl') & _) & Hm).
  destruct (Hm Metaslab.default) as (_ & Hh1 & (l1 & Hl1 & Hl1') & _ & Hdbg1).
  split; [reflexivity |]. split; [exact Hdbg |]. split.
  { unfold four_one, four_slab1. rewrite Hl', <- Hl. reflexivity. }
  split; [exact Hdbg1 |]. split; [exact Hh1 |].
  unfold four_one_unused, four_one, four_slab1. rewrite Hl1', <- Hl1. reflexivity.
Defined.

(** C5 as stated fails in a build with assertions: the slab of the first
    allocation, given back at once, has a record that [alloc_slab] has just
    marked full, and [dealloc_slab] aborts on its assertion. *)
Lemma alloc_dealloc_debug_counterexample :
  reachable 2 16 2048 4096 four_self four_fresh [] /\
  is_almost_full 2 four_fresh = false /\
  Metaslab.is_unused
    (meta_at 2 (alloc_slab 2 16 four_self four_fresh 5).2
       (slab_to_index 16 four_self (alloc_slab 2 16 four_self four_fresh 5).1))
    = false /\
  dealloc_slab_debug 2 16 four_self
    (alloc_slab 2 16 four_self four_fresh 5).2
    (alloc_slab 2 16 four_self four_fresh 5).1 = None.
Proof.
  split; [exact four_fresh_reachable |].
  split; [reflexivity |]. split; vm_compute; reflexivity.
Qed.

(** C6 with the short slab in use and no regular slab. *)
Lemma alloc_short_slab_fallback_witness :
  used_ok 2 four_short = true /\ Z.odd (used four_short) = true /\
  alloc_short_slab 2 16 four_self four_short 9 = alloc_slab 2 16 four_self four_short 9 /\
  used (alloc_short_slab 2 16 four_self four_short 9).2 = 3.
Proof.
  pose proof (alloc_short_slab_fallback 2 four_bits_range 16 four_self four_short 9
                eq_refl eq_refl) as (He & _ & Hu).
  split; [reflexivity |]. split; [reflexivity |]. split; [exact He | exact Hu].
Defined.

(** C7: the short slab taken from the fresh superslab, then given back. *)
Lemma short_slab_frame_witness :
  used_ok 2 four_fresh = true /\ Z.even (used four_fresh) = true /\
  used four_short = 1 /\ head four_short = head four_fresh /\
  used_ok 2 four_short = true /\ 0 < used four_short /\
  used (dealloc_short_slab 2 four_short).2 = 0 /\
  meta (dealloc_short_slab 2 four_short).2 = meta four_short.
Proof.
  pose proof (short_slab_frame 2 four_bits_range 16 four_self four_fresh 3 eq_refl)
    as (Ha & _).
  destruct (Ha eq_refl) as (_ & Hu & Hh & _).
  pose proof (short_slab_frame 2 four_bits_range 16 four_self four_short 3 eq_refl)
    as (_ & Hd).
  destruct (Hd eq_refl) as (Hu' & _ & Hm & _).
  split; [reflexivity |]. split; [reflexivity |].
  split; [exact Hu |]. split; [exact Hh |].
  split; [reflexivity |]. split; [reflexivity |].
  split; [exact Hu' | exact Hm].
Defined.

(** C8 on the header that [init] leaves in fresh memory. *)
Lemma init_debug_walk_empty_witness :
  invariant 2 four_fresh = true /\ used four_fresh = 0 /\
  init_debug_steps 2 four_fresh = 3%nat /\
  Mod_get 2 (init_debug_walk 2 four_fresh) = 0.
Proof.
  pose proof (init_debug_walk_empty 2 four_bits_range four_fresh eq_refl eq_refl)
    as (Hs & Hw & _).
  split; [reflexivity |]. split; [reflexivity |]. split; [exact Hs | exact Hw].
Defined.

(** C8 as stated fails once a slab is in use: with slot 1 allocated the
    invariant holds and two links lead from [head] to slot 0, but the walk
    of [init] follows [SLAB_COUNT - used - 1 = 1] link, ends on slot 3 and
    aborts. *)
Lemma init_debug_walk_counterexample :
  invariant 2 four_one = true /\
  used_ok 2 four_one = true /\
  free_list_ok 2 four_one = true /\
  Z.to_nat (SLAB_COUNT 2 - Z.shiftr (used four_one) 1 - 1) = 2%nat /\
  walk 2 (meta four_one) 2 (Mod_get 2 (head four_one)) = 0 /\
  init_debug_steps 2 four_one = 1%nat /\
  Mod_get 2 (init_debug_walk 2 four_one) = 3 /\
  init_debug_steps 2 four_one
    <> Z.to_nat (SLAB_COUNT 2 - Z.shiftr (used four_one) 1 - 1) /\
  Mod_get 2 (init_debug_walk 2 four_one) <> 0.
Proof. vm_compute. repeat split; discriminate. Qed.

(** C9 on the table of powers of two: class 12, of 65536 bytes, is the
    threshold; class 11 may use the short slab. *)
Lemma is_short_sizeclass_spec_witness :
  size_to_sizeclass_const pow2_classes 16 (SLAB_SIZE 16 - 2048) = 12 /\
  (is_short_sizeclass 16 2048 pow2_classes 16 11 = true <-> 11 < 12) /\
  pow2_classes 11 < SLAB_SIZE 16 - 2048 /\
  is_short_sizeclass 16 2048 pow2_classes 16 12 = false.
Proof.
  pose proof (is_short_sizeclass_spec 16 2048 pow2_classes 16 11)
    as (Hiff & Hlt & Hh & _).
  split; [reflexivity |]. split; [exact Hiff |].
  split; [apply Hlt; [lia | reflexivity] | exact Hh].
Defined.

(** C10 with the three regular slabs in use, then with the short slab
    alone. *)
Lemma dealloc_status_change_witness :
  four_slab3 ∈ [four_slab3; four_slab2; four_slab1] /\
  ((dealloc_slab 2 16 four_self four_three four_slab3).1 = StatusChange
     <-> get_status 2 (dealloc_slab 2 16 four_self four_three four_slab3).2
         <> get_status 2 four_three).
Proof.
  assert (Hin : four_slab3 ∈ [four_slab3; four_slab2; four_slab1]) by left.
  pose proof (dealloc_status_change 2 four_bits_range 16 four_slab_bits_range
                2048 4096 four_self four_three _ four_three_reachable)
    as (Hd & _).
  destruct (Hd four_slab3 Hin) as (Hiff & _).
  split; [exact Hin | exact Hiff].
Defined.

(** ** The further properties on the superslab of four slots *)

(** Memory that held something else: four records with stale contents. *)
Definition four_stale : Superslab :=
  mkSuperslab OtherKind 7 3 6
    (replicate 4 (Metaslab.mk [8; 16] true 9 200)).

(** The history of the full superslab: three regular slabs, then the
    short slab. *)
Lemma four_three_tracked :
  tracked 2 16 2048 4096 four_self four_three
          [four_slab3; four_slab2; four_slab1] false.
Proof.
  assert (H0 : tracked 2 16 2048 4096 four_self four_fresh [] false).
  { unfold four_fresh. apply track_fresh; [reflexivity |].
    unfold zero_filled. repeat split; reflexivity. }
  assert (H1 : tracked 2 16 2048 4096 four_self four_one [four_slab1] false).
  { unfold four_one, four_slab1. apply track_alloc_slab; [exact H0 | reflexivity]. }
  assert (H2 : tracked 2 16 2048 4096 four_self four_two
                 [four_slab2; four_slab1] false).
  { unfold four_two, four_slab2. apply track_alloc_slab; [exact H1 | reflexivity]. }
  unfold four_three, four_slab3. apply track_alloc_slab; [exact H2 | reflexivity].
Defined.

Lemma four_full_tracked :
  tracked 2 16 2048 4096 four_self four_full
          [four_slab3; four_slab2; four_slab1] true.
Proof.
  unfold four_full. apply track_alloc_short_slab, four_three_tracked.
Defined.

(** X1 on the full superslab: three regular slabs and the short slab. *)
Lemma reachable_used_count_witness :
  tracked 2 16 2048 4096 four_self four_full
          [four_slab3; four_slab2; four_slab1] true /\
  invariant 2 four_full = true /\
  used four_full = 2 * 3 + 1 /\
  Z.odd (used four_full) = true /\
  four_self ∉ [four_slab3; four_slab2; four_slab1].
Proof.
  pose proof four_full_tracked as Ht.
  pose proof (reachable_used_count 2 four_bits_range 16 four_slab_bits_range
                2048 4096 four_self four_full _ true Ht)
    as (_ & Hinv & _ & Hu & Hodd & _ & _ & _ & Hs & _).
  split; [exact Ht |]. split; [exact Hinv |]. split; [exact Hu |].
  split; [exact Hodd | exact Hs].
Defined.

(** X2 with slot 1 handed out. *)
Lemma free_list_partition_witness :
  exists l, free_list 2 four_one = Some l /\ NoDup l /\
    (2 ∈ l <-> slab_address 16 four_self 2 ∉ [four_slab1]) /\
    walk 2 (meta four_one) (length l) (Mod_get 2 (head four_one)) = 0.
Proof.
  destruct (free_list_partition 2 four_bits_range 16 four_slab_bits_range
              2048 4096 four_self four_one _ four_one_reachable)
    as (l & Hl & Hnd & Hiff & _ & _ & Hw & _).
  exists l. split; [exact Hl |]. split; [exact Hnd |].
  split; [apply Hiff; vm_compute; split; [discriminate | reflexivity] | exact Hw].
Defined.

(** X3 on the second allocation. *)
Lemma alloc_slab_fresh_slab_witness :
  is_almost_full 2 four_one = false /\
  (four_slab2 ∉ [four_slab1]) /\ four_slab2 <> four_self.
Proof.
  pose proof (alloc_slab_fresh_slab 2 four_bits_range 16 four_slab_bits_range
                2048 4096 four_self four_one _ 6 four_one_reachable eq_refl)
    as (Hnot & Hne & _).
  split; [reflexivity |]. split; [exact Hnot | exact Hne].
Defined.

(** X4 on slot 2, given back and taken again. *)
Lemma dealloc_alloc_round_trip_witness :
  four_slab2 ∈ [four_slab3; four_slab2; four_slab1] /\
  (alloc_slab 2 16 four_self
     (dealloc_slab 2 16 four_self four_three four_slab2).2 9).1 = four_slab2 /\
  free_list 2
    (alloc_slab 2 16 four_self
       (dealloc_slab 2 16 four_self four_three four_slab2).2 9).2
    = free_list 2 four_three.
Proof.
  assert (Hin : four_slab2 ∈ [four_slab3; four_slab2; four_slab1])
    by (right; left).
  pose proof (dealloc_alloc_round_trip 2 four_bits_range 16 four_slab_bits_range
                2048 4096 four_self four_three _ four_slab2 9
                four_three_reachable Hin) as (Ha & _ & Hl & _).
  split; [exact Hin |]. split; [exact Ha | exact Hl].
Defined.

(** X5 with the three regular slabs in use. *)
Lemma alloc_slab_almost_full_witness :
  invariant 2 four_three = true /\ is_almost_full 2 four_three = true /\
  (alloc_slab 2 16 four_self four_three 9).1 = four_self /\
  used (alloc_slab 2 16 four_self four_three 9).2 = 8 /\
  invariant 2 (alloc_slab 2 16 four_self four_three 9).2 = false.
Proof.
  pose proof (alloc_slab_almost_full 2 four_bits_range 16 four_slab_bits_range
                four_self four_three 9 eq_refl eq_refl)
    as (_ & _ & Ha & _ & _ & Hu & _ & Hinv).
  split; [reflexivity |]. split; [reflexivity |].
  split; [exact Ha |]. split; [exact Hu | exact Hinv].
Defined.

(** X6 on the fresh superslab. *)
Lemma dealloc_empty_wraps_witness :
  used four_fresh = 0 /\
  used (dealloc_slab 2 16 four_self four_fresh four_slab1).2 = 65534 /\
  (dealloc_slab 2 16 four_self four_fresh four_slab1).1 = NoStatusChange /\
  used (dealloc_short_slab 2 four_fresh).2 = 65535.
Proof.
  pose proof (dealloc_empty_wraps 2 four_bits_range 16 four_self four_fresh
                four_slab1 eq_refl) as (Ha & Hu & _ & _ & Hu' & _).
  split; [reflexivity |]. split; [exact Hu |]. split; [exact Ha | exact Hu'].
Defined.

(** X7 on the fresh superslab, the record of the short slab rewritten as
    unused before it is given back. *)
Lemma short_slab_round_trip_witness :
  meta_ok 2 four_fresh = true /\ used_ok 2 four_fresh = true /\
  Z.even (used four_fresh) = true /\
  dealloc_short_slab_debug 2 four_short = None /\
  (let s1 := set_meta_at 2 0 Metaslab.default four_short in
   let d := dealloc_short_slab 2 s1 in
   dealloc_short_slab_debug 2 s1 = Some d /\
   used d.2 = used four_fresh /\
   free_list 2 d.2 = free_list 2 four_fresh /\
   (d.1 = StatusChange <->
      get_status 2 four_fresh = Empty
      \/ get_status 2 four_fresh = OnlyShortSlabAvailable)).
Proof.
  assert (Hm : meta_ok 2 four_fresh = true) by reflexivity.
  assert (Hu : used_ok 2 four_fresh = true) by reflexivity.
  assert (He : Z.even (used four_fresh) = true) by reflexivity.
  pose proof (short_slab_round_trip 2 four_bits_range 16 four_self four_fresh 3
                Hm Hu He) as (_ & Hd & _ & Hall).
  split; [exact Hm |]. split; [exact Hu |]. split; [exact He |].
  split; [exact Hd |].
  destruct (Hall Metaslab.default) as (E1 & _ & E3 & _ & E5 & _ & E7).
  split; [exact E7 |]. split; [exact E1 |]. split; [exact E3 | exact E5].
Defined.

(** X8 on an address of the third slot. *)
Lemma slab_to_index_inside_witness :
  slab_to_index 16 four_self (slab_address 16 four_self 2 + 100) = 2 /\
  slab_to_index_assert 16 four_self (slab_address 16 four_self 2 + 100) = true /\
  get_meta 2 16 four_self four_one (slab_address 16 four_self 2 + 100)
    = meta four_one !!! 2%nat.
Proof.
  assert (Hj : 0 <= 2) by lia.
  assert (Hoff : 0 <= 100 < SLAB_SIZE 16)
    by (vm_compute; split; [discriminate | reflexivity]).
  assert (Hfit : 2 * SLAB_SIZE 16 + 100 < 2 ^ 64) by (vm_compute; reflexivity).
  pose proof (slab_to_index_inside 2 four_bits_range 16 four_slab_bits_range
                four_self four_one 2 100 Hj Hoff Hfit)
    as (_ & _ & Hin).
  apply Hin. vm_compute. reflexivity.
Defined.

(** X9 on an address of the second slot. *)
Lemma get_header_witness :
  four_self mod SUPERSLAB_SIZE 2 16 = 0 /\
  get 2 16 (four_self + 70000) = four_self.
Proof.
  pose proof (get_header 2 four_bits_range 16 four_slab_bits_range 0)
    as (_ & _ & _ & Hin).
  split; [reflexivity |].
  apply Hin; [reflexivity | vm_compute; split; [discriminate | reflexivity]].
Defined.

(** X10 on the first allocation. *)
Lemma get_allocated_slab_witness :
  four_self mod SUPERSLAB_SIZE 2 16 = 0 /\
  get 2 16 (four_slab1 + 100) = four_self /\
  get 2 16 ((alloc_short_slab 2 16 four_self four_fresh 3).1 + 100) = four_self.
Proof.
  pose proof (get_allocated_slab 2 four_bits_range 16 four_slab_bits_range
                four_self four_fresh 5 100 eq_refl
                ltac:(vm_compute; split; [discriminate | reflexivity]))
    as (_ & Ha & _).
  pose proof (get_allocated_slab 2 four_bits_range 16 four_slab_bits_range
                four_self four_fresh 3 100 eq_refl
                ltac:(vm_compute; split; [discriminate | reflexivity]))
    as (_ & _ & _ & Hs).
  split; [reflexivity |]. split; [exact Ha | exact Hs].
Defined.

(** X11 on the first allocation. *)
Lemma get_meta_after_alloc_slab_witness :
  invariant 2 four_fresh = true /\ is_almost_full 2 four_fresh = false /\
  slab_to_index 16 four_self (four_slab1 + 100) = 1 /\
  Metaslab.sizeclass (get_meta 2 16 four_self four_one (four_slab1 + 100)) = 5.
Proof.
  pose proof (get_meta_after_alloc_slab 2 four_bits_range 16 four_slab_bits_range
                four_self four_fresh 5 100 eq_refl eq_refl ltac:(lia)
                ltac:(vm_compute; split; [discriminate | reflexivity]))
    as (Hi & _ & Hs & _).
  split; [reflexivity |]. split; [reflexivity |]. split; [exact Hi | exact Hs].
Defined.

(** X12 on the short slab of the fresh superslab. *)
Lemma get_meta_after_alloc_short_slab_witness :
  meta_ok 2 four_fresh = true /\ Z.even (used four_fresh) = true /\
  slab_to_index 16 four_self
    ((alloc_short_slab 2 16 four_self four_fresh 3).1 + 100) = 0 /\
  Metaslab.sizeclass
    (get_meta 2 16 four_self four_short
       ((alloc_short_slab 2 16 four_self four_fresh 3).1 + 100)) = 3.
Proof.
  pose proof (get_meta_after_alloc_short_slab 2 four_bits_range 16
                four_slab_bits_range four_self four_fresh 3 100
                eq_refl eq_refl ltac:(lia)
                ltac:(vm_compute; split; [discriminate | reflexivity]))
    as (_ & Hi & Hs & _).
  split; [reflexivity |]. split; [reflexivity |]. split; [exact Hi | exact Hs].
Defined.

(** X13 on slot 2 of the superslab with three slabs in use. *)
Lemma dealloc_slab_frame_witness :
  meta_at 2 (dealloc_slab 2 16 four_self four_three four_slab2).2 1
    = meta_at 2 four_three 1 /\
  Metaslab.full (meta_at 2 (dealloc_slab 2 16 four_self four_three four_slab2).2 2)
    = true.
Proof.
  pose proof (dealloc_slab_frame 2 four_bits_range 16 four_self four_three
                four_slab2) as (Hother & _ & Hfull & _).
  split; [apply Hother; [vm_compute; split; [discriminate | reflexivity]
                        | vm_compute; discriminate]
         | exact Hfull].
Defined.

(** X14 with slot 1 in use. *)
Lemma init_debug_aborts_in_use_witness :
  invariant 2 four_one = true /\ kind four_one = Super /\
  1 <= used four_one <= SLAB_COUNT 2 - 1 /\
  init_debug 2 2048 4096 four_owner four_one = None.
Proof.
  assert (Hu : 1 <= used four_one <= SLAB_COUNT 2 - 1)
    by (vm_compute; split; discriminate).
  pose proof (init_debug_aborts_in_use 2 four_bits_range 2048 4096 four_owner
                four_one eq_refl eq_refl ltac:(lia) Hu) as (_ & _ & Hn).
  split; [reflexivity |]. split; [reflexivity |]. split; [exact Hu | exact Hn].
Defined.

(** X15 on the stale memory. *)
Lemma init_recycled_witness :
  kind four_stale <> Fresh /\ meta_ok 2 four_stale = true /\
  init 2 2048 4096 four_owner four_stale
    = mkSuperslab Super four_owner 1 0 (replicate 4 Metaslab.default) /\
  init_debug 2 2048 4096 four_owner four_stale
    = Some (init 2 2048 4096 four_owner four_stale).
Proof.
  assert (Hk : kind four_stale <> Fresh) by discriminate.
  assert (Hc : kind four_stale <> Super \/ 4096 <= 2048) by (left; discriminate).
  assert (Hm : meta_ok 2 four_stale = true) by reflexivity.
  pose proof (init_recycled 2 four_bits_range 2048 4096 four_owner four_stale
                Hk Hc Hm) as (Hi & Hd & _).
  split; [exact Hk |]. split; [exact Hm |]. split; [exact Hi | exact Hd].
Defined.

(** X16 on the fresh superslab, initialised anew for another owner. *)
Lemma init_again_witness :
  is_empty four_fresh = true /\
  allocator (init 2 2048 4096 8192 four_fresh) = 8192 /\
  invariant 2 (init 2 2048 4096 8192 four_fresh) = true /\
  free_list 2 (init 2 2048 4096 8192 four_fresh) = free_list 2 four_fresh.
Proof.
  pose proof (init_again 2 four_bits_range 16 four_slab_bits_range 2048 4096
                four_self 8192 four_fresh four_fresh_reachable eq_refl)
    as (_ & Ha & _ & Hinv & _ & _ & Hkeep).
  destruct (Hkeep ltac:(lia)) as (_ & _ & Hl).
  split; [reflexivity |]. split; [exact Ha |]. split; [exact Hinv | exact Hl].
Defined.

Lemma pow2_classes_mono (a b : Z) :
  0 <= a <= b -> b < Z.of_nat 16 -> pow2_classes a <= pow2_classes b.
Proof.
  intros Hab _. unfold pow2_classes. apply Z.pow_le_mono_r; lia.
Defined.

(** X17 on the table of powers of two. *)
Lemma is_short_sizeclass_exact_witness :
  0 <= 11 < Z.of_nat 16 /\
  (is_short_sizeclass 16 2048 pow2_classes 16 11 = true <->
     pow2_classes 11 < SLAB_SIZE 16 - 2048).
Proof.
  assert (Hc : 0 <= 11 < Z.of_nat 16) by (simpl; lia).
  pose proof (is_short_sizeclass_exact 16 2048 pow2_classes 16 11
                pow2_classes_mono Hc) as (Hiff & _).
  split; [exact Hc | exact Hiff].
Defined.

(** X18 on three allocations from the fresh superslab. *)
Lemma alloc_slabs_in_order_witness :
  meta_ok 2 four_fresh = true /\ head four_fresh = 1 /\ used four_fresh = 0 /\
  (alloc_slabs 2 16 four_self four_fresh [5; 6; 7]).1
    = slab_address 16 four_self <$> seqZ 1 3 /\
  used (alloc_slabs 2 16 four_self four_fresh [5; 6; 7]).2 = 6 /\
  is_almost_full 2 (alloc_slabs 2 16 four_self four_fresh [5; 6; 7]).2 = true.
Proof.
  pose proof (alloc_slabs_in_order 2 four_bits_range 16 four_slab_bits_range
                four_self four_fresh [5; 6; 7] eq_refl four_fresh_links
                eq_refl eq_refl ltac:(vm_compute; discriminate))
    as (Hs & Hu & _ & _ & Hf).
  split; [reflexivity |]. split; [reflexivity |]. split; [reflexivity |].
  split; [exact Hs |]. split; [exact Hu |]. apply Hf. reflexivity.
Defined.

(** X19 on the fresh superslab. *)
Lemma alloc_slab_short_slab_commute_witness :
  invariant 2 four_fresh = true /\ is_almost_full 2 four_fresh = false /\
  Z.even (used four_fresh) = true /\
  (alloc_short_slab 2 16 four_self four_one 3).2
    = (alloc_slab 2 16 four_self four_short 5).2.
Proof.
  pose proof (alloc_slab_short_slab_commute 2 four_bits_range 16
                four_slab_bits_range four_self four_fresh 5 3
                eq_refl eq_refl eq_refl) as (_ & _ & He & _).
  split; [reflexivity |]. split; [reflexivity |]. split; [reflexivity | exact He].
Defined.
